(** * Word2Vec data preparation: the sliding-window sample generator

    A shallow embedding of the notebook
    [Representations (Word2Vec - Data Preparation).ipynb]: the vocabulary
    built in the cell "Create & Save Vocabulary" and the loop of the cell
    "Generate Dataset from Extracted Tokens" that fills the two Numpy arrays
    [cbow] and [skipgram].

    Python integers are [Z]; Python lists are [list]; a Python exception is
    the [Raise] branch of [result]; a Numpy array of dtype [int32] is a record
    holding its shape and its rows, every stored element being cast to 32
    bits. *)

From Stdlib Require Import ZArith String List Bool Lia Sorted.
From stdpp Require Import base list.
Import ListNotations.
Local Open Scope Z_scope.

(** ** Exceptions *)

Inductive exn : Type :=
  | ValueError     (* numpy: negative dimension, shape that does not fit *)
  | IndexError     (* list or array index out of range *)
  | RuntimeError.  (* torchtext: token not found and no default index *)

Inductive result (A : Type) : Type :=
  | Ok (a : A)
  | Raise (e : exn).
Arguments Ok {A} a.
Arguments Raise {A} e.

Definition bind {A B : Type} (m : result A) (k : A -> result B) : result B :=
  match m with
  | Ok a => k a
  | Raise e => Raise e
  end.

Notation "'do' x <- m ; k" := (bind m (fun x => k))
  (at level 10, x pattern, m at level 100, k at level 200).

(** A [for] loop over [l] threading the loop state [s]; the first exception
    leaves the loop. *)
Fixpoint for_each {S B : Type} (body : S -> B -> result S) (l : list B) (s : S)
  : result S :=
  match l with
  | [] => Ok s
  | b :: l' => do s' <- body s b; for_each body l' s'
  end.

Fixpoint map_result {A B : Type} (f : A -> result B) (l : list A)
  : result (list B) :=
  match l with
  | [] => Ok []
  | a :: l' => do b <- f a; do bs <- map_result f l'; Ok (b :: bs)
  end.

(** ** Python built-ins *)

Module Py.

Definition len {A : Type} (l : list A) : Z := Z.of_nat (length l).

(** [l[i]]: a negative index counts from the end. *)
Definition getitem {A : Type} (l : list A) (i : Z) : result A :=
  let j := if i <? 0 then i + len l else i in
  if (j <? 0) || (len l <=? j) then Raise IndexError
  else match l !! Z.to_nat j with
       | Some a => Ok a
       | None => Raise IndexError
       end.

(** A slice bound: negative counts from the end, then clamped to
    [0 .. len l]. *)
Definition clamp (n i : Z) : Z :=
  if i <? 0 then Z.max (i + n) 0 else Z.min i n.

(** [l[a:b]]. *)
Definition slice {A : Type} (l : list A) (a b : Z) : list A :=
  let lo := clamp (len l) a in
  let hi := clamp (len l) b in
  take (Z.to_nat (hi - lo)) (drop (Z.to_nat lo) l).

(** [range(a, b)]. *)
Definition range (a b : Z) : list Z :=
  map (fun k => a + Z.of_nat k) (seq 0 (Z.to_nat (b - a))).

Fixpoint enumerate_from {A : Type} (k : Z) (l : list A) : list (Z * A) :=
  match l with
  | [] => []
  | a :: l' => (k, a) :: enumerate_from (k + 1) l'
  end.

(** [enumerate(l)]. *)
Definition enumerate {A : Type} (l : list A) : list (Z * A) :=
  enumerate_from 0 l.

End Py.

(** ** Numpy arrays of dtype int32, two-dimensional *)

Module Np.

Record ndarray : Type := mk_ndarray {
  nrows : Z;
  ncols : Z;
  data : list (list Z)
}.

(** The cast to [np.int32]: two's complement wrap-around. *)
Definition int32 (z : Z) : Z := (z + 2 ^ 31) mod 2 ^ 32 - 2 ^ 31.

(** [np.zeros((r, c), dtype=np.int32)]; a negative dimension is refused. *)
Definition zeros (r c : Z) : result ndarray :=
  if (r <? 0) || (c <? 0) then Raise ValueError
  else Ok (mk_ndarray r c
             (replicate (Z.to_nat r) (replicate (Z.to_nat c) 0))).

(** [a[i] = np.array(v)]: the row index may be negative; a one-dimensional
    value of length [ncols a] is stored element-wise, one of length 1 is
    broadcast, any other length does not fit. *)
Definition setitem (a : ndarray) (i : Z) (v : list Z) : result ndarray :=
  let j := if i <? 0 then i + nrows a else i in
  if (j <? 0) || (nrows a <=? j) then Raise IndexError
  else
    do row <-
      (if Py.len v =? ncols a then Ok (map int32 v)
       else match v with
            | [x] => Ok (replicate (Z.to_nat (ncols a)) (int32 x))
            | _ => Raise ValueError
            end);
    Ok (mk_ndarray (nrows a) (ncols a) (<[Z.to_nat j := row]> (data a))).

End Np.

(** ** torchtext vocabulary *)

Module Vocab.

Record t : Type := mk {
  itos : list string;          (* index -> token *)
  default_index : option Z
}.

Fixpoint index_of (tok : string) (l : list string) : option nat :=
  match l with
  | [] => None
  | s :: l' => if String.eqb tok s then Some O
               else option_map S (index_of tok l')
  end.

(** [len(v)]. *)
Definition len (v : t) : Z := Py.len (itos v).

(** [v[tok]]. *)
Definition getitem (v : t) (tok : string) : result Z :=
  match index_of tok (itos v) with
  | Some i => Ok (Z.of_nat i)
  | None => match default_index v with
            | Some d => Ok d
            | None => Raise RuntimeError
            end
  end.

(** [v.lookup_indices(toks)]. *)
Definition lookup_indices (v : t) (toks : list string) : result (list Z) :=
  map_result (getitem v) toks.

Definition set_default_index (v : t) (i : Z) : t :=
  mk (itos v) (Some i).

(** [OrderedDict(items)]: a key seen again keeps its place and takes the
    new value. *)
Fixpoint dict_set (d : list (string * Z)) (k : string) (x : Z)
  : list (string * Z) :=
  match d with
  | [] => [(k, x)]
  | (k', x') :: d' => if String.eqb k k' then (k', x) :: d'
                      else (k', x') :: dict_set d' k x
  end.

Definition OrderedDict (items : list (string * Z)) : list (string * Z) :=
  fold_left (fun d kx => dict_set d (fst kx) (snd kx)) items [].

Definition dict_pop (d : list (string * Z)) (k : string)
  : list (string * Z) :=
  List.filter (fun kx => negb (String.eqb k (fst kx))) d.

(** [torchtext.vocab.vocab(ordered_dict, specials=specials)], with the
    defaults [min_freq=1] and [special_first=True]. *)
Definition vocab (ordered_dict : list (string * Z)) (specials : list string)
  : t :=
  let d := fold_left dict_pop specials ordered_dict in
  let tokens := map fst (List.filter (fun kx => 1 <=? snd kx) d) in
  mk (specials ++ tokens) None.

End Vocab.

(** ** The notebook *)

(** *** Cell "Create & Save Vocabulary" *)

Definition TOP_TOKENS : Z := 20000.

Definition PAD_TOKEN : string := "<PAD>".
Definition UNK_TOKEN : string := "<UNK>".
Definition SOS_TOKEN : string := "<SOS>".
Definition EOS_TOKEN : string := "<EOS>".

Definition SPECIALS : list string :=
  [PAD_TOKEN; UNK_TOKEN; SOS_TOKEN; EOS_TOKEN].

(** [OrderedDict(token_counter_sorted[:TOP_TOKENS])]. *)
Definition token_ordered_dict (token_counter_sorted : list (string * Z))
  : list (string * Z) :=
  Vocab.OrderedDict (Py.slice token_counter_sorted 0 TOP_TOKENS).

(** [vocabulary = vocab(token_ordered_dict, specials=SPECIALS)] followed by
    [vocabulary.set_default_index(vocabulary[UNK_TOKEN])]. *)
Definition vocabulary (token_counter_sorted : list (string * Z))
  : result Vocab.t :=
  let vocabulary :=
    Vocab.vocab (token_ordered_dict token_counter_sorted) SPECIALS in
  do unk <- Vocab.getitem vocabulary UNK_TOKEN;
  Ok (Vocab.set_default_index vocabulary unk).

(** *** Cell "Generate Dataset from Extracted Tokens" *)

(** The body of the inner loop [for idx, c in enumerate(context)]. *)
Definition skipgram_step (vocabulary : Vocab.t) (window_size : Z)
    (center_idx : Z) (center : string) (skipgram : Np.ndarray)
    (it : Z * string) : result Np.ndarray :=
  let '(idx, c) := it in
  do ce <- Vocab.lookup_indices vocabulary [center];
  do cx <- Vocab.lookup_indices vocabulary [c];
  Np.setitem skipgram (center_idx * window_size * 2 + idx) (ce ++ cx).

Definition skipgram_loop (vocabulary : Vocab.t) (window_size : Z)
    (center_idx : Z) (center : string) (context : list string)
    (skipgram : Np.ndarray) : result Np.ndarray :=
  for_each (skipgram_step vocabulary window_size center_idx center)
    (Py.enumerate context) skipgram.

(** The body of [for center_idx, pos in enumerate(range(...))]. *)
Definition window_step (vocabulary : Vocab.t) (tokens : list string)
    (window_size : Z) (arrays : Np.ndarray * Np.ndarray)
    (it : Z * Z) : result (Np.ndarray * Np.ndarray) :=
  let '(cbow, skipgram) := arrays in
  let '(center_idx, pos) := it in
  do center <- Py.getitem tokens pos;
  let context :=
    Py.slice tokens (pos - window_size) pos
    ++ Py.slice tokens (pos + 1) (pos + window_size + 1) in
  do cx <- Vocab.lookup_indices vocabulary context;
  do ce <- Vocab.lookup_indices vocabulary [center];
  do cbow <- Np.setitem cbow (pos - window_size) (cx ++ ce);
  do skipgram <-
    skipgram_loop vocabulary window_size center_idx center context skipgram;
  Ok (cbow, skipgram).

(** The whole cell, as a function of the globals it reads; the result is the
    pair [(cbow, skipgram)] the cell leaves behind. The cell opens with
    [window_size = 5]; the radius is an argument here, so that the cell can
    be studied at every radius. *)
Definition generate (vocabulary : Vocab.t) (tokens : list string)
    (window_size : Z) : result (Np.ndarray * Np.ndarray) :=
  do cbow <-
    Np.zeros (Py.len tokens - 2 * window_size) (2 * window_size + 1);
  do skipgram <-
    Np.zeros ((Py.len tokens - 2 * window_size) * (2 * window_size)) 2;
  for_each (window_step vocabulary tokens window_size)
    (Py.enumerate (Py.range window_size (Py.len tokens - window_size)))
    (cbow, skipgram).

(** *** The cell as a step of the notebook

    The cell is a sequence of statements on the globals of the notebook. It
    reads [tokens] and [vocabulary], bound by the cells above it, and binds
    every other name below. What the progress bar is asked to do is kept in
    [g_display], latest call last; what tqdm draws for these calls depends
    on the clock and is left out. *)

Inductive event : Type :=
  | TqdmOpen (total : Z)     (* tqdm(total=...) *)
  | TqdmUpdate (n : Z)       (* pbar.update(n) *)
  | TqdmClose.               (* leaving the [with] block *)

Record tqdm : Type := mk_tqdm {
  bar_total : Z;
  bar_n : Z;
  bar_closed : bool
}.

Record globals : Type := mk_globals {
  g_tokens : list string;
  g_vocabulary : Vocab.t;
  g_window_size : option Z;
  g_cbow : option Np.ndarray;
  g_skipgram : option Np.ndarray;
  g_pbar : option tqdm;
  g_center_idx : option Z;
  g_pos : option Z;
  g_center : option string;
  g_context : option (list string);
  g_cbow_sample : option (list Z);
  g_idx : option Z;
  g_c : option string;
  g_skipgram_sample : option (list Z);
  g_display : list event
}.

Definition set_window_size (x : Z) (g : globals) : globals :=
  mk_globals (g_tokens g) (g_vocabulary g) (Some x) (g_cbow g) (g_skipgram g)
    (g_pbar g) (g_center_idx g) (g_pos g) (g_center g) (g_context g)
    (g_cbow_sample g) (g_idx g) (g_c g) (g_skipgram_sample g) (g_display g).

Definition set_cbow (x : Np.ndarray) (g : globals) : globals :=
  mk_globals (g_tokens g) (g_vocabulary g) (g_window_size g) (Some x)
    (g_skipgram g) (g_pbar g) (g_center_idx g) (g_pos g) (g_center g)
    (g_context g) (g_cbow_sample g) (g_idx g) (g_c g) (g_skipgram_sample g)
    (g_display g).

Definition set_skipgram (x : Np.ndarray) (g : globals) : globals :=
  mk_globals (g_tokens g) (g_vocabulary g) (g_window_size g) (g_cbow g)
    (Some x) (g_pbar g) (g_center_idx g) (g_pos g) (g_center g) (g_context g)
    (g_cbow_sample g) (g_idx g) (g_c g) (g_skipgram_sample g) (g_display g).

Definition set_pbar (x : tqdm) (g : globals) : globals :=
  mk_globals (g_tokens g) (g_vocabulary g) (g_window_size g) (g_cbow g)
    (g_skipgram g) (Some x) (g_center_idx g) (g_pos g) (g_center g)
    (g_context g) (g_cbow_sample g) (g_idx g) (g_c g) (g_skipgram_sample g)
    (g_display g).

Definition set_center_idx (x : Z) (g : globals) : globals :=
  mk_globals (g_tokens g) (g_vocabulary g) (g_window_size g) (g_cbow g)
    (g_skipgram g) (g_pbar g) (Some x) (g_pos g) (g_center g) (g_context g)
    (g_cbow_sample g) (g_idx g) (g_c g) (g_skipgram_sample g) (g_display g).

Definition set_pos (x : Z) (g : globals) : globals :=
  mk_globals (g_tokens g) (g_vocabulary g) (g_window_size g) (g_cbow g)
    (g_skipgram g) (g_pbar g) (g_center_idx g) (Some x) (g_center g)
    (g_context g) (g_cbow_sample g) (g_idx g) (g_c g) (g_skipgram_sample g)
    (g_display g).

Definition set_center (x : string) (g : globals) : globals :=
  mk_globals (g_tokens g) (g_vocabulary g) (g_window_size g) (g_cbow g)
    (g_skipgram g) (g_pbar g) (g_center_idx g) (g_pos g) (Some x)
    (g_context g) (g_cbow_sample g) (g_idx g) (g_c g) (g_skipgram_sample g)
    (g_display g).

Definition set_context (x : list string) (g : globals) : globals :=
  mk_globals (g_tokens g) (g_vocabulary g) (g_window_size g) (g_cbow g)
    (g_skipgram g) (g_pbar g) (g_center_idx g) (g_pos g) (g_center g) (Some x)
    (g_cbow_sample g) (g_idx g) (g_c g) (g_skipgram_sample g) (g_display g).

Definition set_cbow_sample (x : list Z) (g : globals) : globals :=
  mk_globals (g_tokens g) (g_vocabulary g) (g_window_size g) (g_cbow g)
    (g_skipgram g) (g_pbar g) (g_center_idx g) (g_pos g) (g_center g)
    (g_context g) (Some x) (g_idx g) (g_c g) (g_skipgram_sample g)
    (g_display g).

Definition set_idx (x : Z) (g : globals) : globals :=
  mk_globals (g_tokens g) (g_vocabulary g) (g_window_size g) (g_cbow g)
    (g_skipgram g) (g_pbar g) (g_center_idx g) (g_pos g) (g_center g)
    (g_context g) (g_cbow_sample g) (Some x) (g_c g) (g_skipgram_sample g)
    (g_display g).

Definition set_c (x : string) (g : globals) : globals :=
  mk_globals (g_tokens g) (g_vocabulary g) (g_window_size g) (g_cbow g)
    (g_skipgram g) (g_pbar g) (g_center_idx g) (g_pos g) (g_center g)
    (g_context g) (g_cbow_sample g) (g_idx g) (Some x) (g_skipgram_sample g)
    (g_display g).

Definition set_skipgram_sample (x : list Z) (g : globals) : globals :=
  mk_globals (g_tokens g) (g_vocabulary g) (g_window_size g) (g_cbow g)
    (g_skipgram g) (g_pbar g) (g_center_idx g) (g_pos g) (g_center g)
    (g_context g) (g_cbow_sample g) (g_idx g) (g_c g) (Some x) (g_display g).

Definition show (e : event) (g : globals) : globals :=
  mk_globals (g_tokens g) (g_vocabulary g) (g_window_size g) (g_cbow g)
    (g_skipgram g) (g_pbar g) (g_center_idx g) (g_pos g) (g_center g)
    (g_context g) (g_cbow_sample g) (g_idx g) (g_c g) (g_skipgram_sample g)
    (g_display g ++ [e]).

(** How a statement ends: normally, with a [NameError] for a name that is
    not bound, or with an exception of the libraries. *)
Inductive raised : Type :=
  | NameError (name : string)
  | Raised (e : exn).

Inductive outcome (A : Type) : Type :=
  | Done (a : A)
  | Failed (r : raised).
Arguments Done {A} a.
Arguments Failed {A} r.

(** A statement or an expression: it runs on the globals, and leaves them
    changed also when it fails. *)
Definition run (A : Type) : Type := globals -> outcome A * globals.

Definition value {A : Type} (a : A) : run A := fun g => (Done a, g).

Definition and_then {A B : Type} (m : run A) (k : A -> run B) : run B :=
  fun g =>
    match m g with
    | (Done a, g') => k a g'
    | (Failed r, g') => (Failed r, g')
    end.

Notation "'let*' x ':=' m 'in' k" := (and_then m (fun x => k))
  (at level 10, x pattern, m at level 100, k at level 200).
Notation "m '>>' k" := (and_then m (fun _ => k))
  (at level 62, right associativity).

(** A name in an expression. *)
Definition name {A : Type} (n : string) (field : globals -> option A)
  : run A :=
  fun g =>
    match field g with
    | Some a => (Done a, g)
    | None => (Failed (NameError n), g)
    end.

Definition global_tokens : run (list string) := fun g => (Done (g_tokens g), g).

Definition global_vocabulary : run Vocab.t :=
  fun g => (Done (g_vocabulary g), g).

(** An assignment, or a call that changes an object in place. *)
Definition assign (set : globals -> globals) : run unit :=
  fun g => (Done tt, set g).

(** A call into Python, numpy or torchtext. *)
Definition call {A : Type} (r : result A) : run A :=
  fun g =>
    match r with
    | Ok a => (Done a, g)
    | Raise e => (Failed (Raised e), g)
    end.

Fixpoint for_in {B : Type} (body : B -> run unit) (l : list B) : run unit :=
  match l with
  | [] => value tt
  | b :: l' => body b >> for_in body l'
  end.

(** [with tqdm(total=total) as pbar: body]: the bar is closed on the way
    out, also when the body fails. *)
Definition with_tqdm (total : Z) (body : run unit) : run unit :=
  fun g =>
    let g := show (TqdmOpen total) (set_pbar (mk_tqdm total 0 false) g) in
    let '(out, g) := body g in
    let close g :=
      match g_pbar g with
      | Some bar =>
          set_pbar (mk_tqdm (bar_total bar) (bar_n bar) true) g
      | None => g
      end in
    (out, show TqdmClose (close g)).

(** [pbar.update(1)]. *)
Definition pbar_update : run unit :=
  let* bar := name "pbar" g_pbar in
  assign (fun g =>
            show (TqdmUpdate 1)
              (set_pbar (mk_tqdm (bar_total bar) (bar_n bar + 1)
                           (bar_closed bar)) g)).

(** The statements of [for idx, c in enumerate(context)], for one item. *)
Definition skipgram_statements (it : Z * string) : run unit :=
  let '(i, x) := it in
  assign (set_idx i) >>
  assign (set_c x) >>
  let* v := global_vocabulary in
  let* center := name "center" g_center in
  let* ce := call (Vocab.lookup_indices v [center]) in
  let* v := global_vocabulary in
  let* c := name "c" g_c in
  let* cx := call (Vocab.lookup_indices v [c]) in
  assign (set_skipgram_sample (ce ++ cx)) >>
  let* skipgram_sample := name "skipgram_sample" g_skipgram_sample in
  let* skipgram := name "skipgram" g_skipgram in
  let* center_idx := name "center_idx" g_center_idx in
  let* window_size := name "window_size" g_window_size in
  let* idx := name "idx" g_idx in
  let* skipgram :=
    call (Np.setitem skipgram (center_idx * window_size * 2 + idx)
            skipgram_sample) in
  assign (set_skipgram skipgram).

(** The statements of [for center_idx, pos in enumerate(range(...))], for
    one item. *)
Definition window_statements (it : Z * Z) : run unit :=
  let '(k, p) := it in
  assign (set_center_idx k) >>
  assign (set_pos p) >>
  let* tokens := global_tokens in
  let* pos := name "pos" g_pos in
  let* center := call (Py.getitem tokens pos) in
  assign (set_center center) >>
  let* tokens := global_tokens in
  let* pos := name "pos" g_pos in
  let* window_size := name "window_size" g_window_size in
  let left := Py.slice tokens (pos - window_size) pos in
  let* tokens := global_tokens in
  let* pos := name "pos" g_pos in
  let* window_size' := name "window_size" g_window_size in
  let right := Py.slice tokens (pos + 1) (pos + window_size' + 1) in
  assign (set_context (left ++ right)) >>
  let* v := global_vocabulary in
  let* context := name "context" g_context in
  let* cx := call (Vocab.lookup_indices v context) in
  let* v := global_vocabulary in
  let* center := name "center" g_center in
  let* ce := call (Vocab.lookup_indices v [center]) in
  assign (set_cbow_sample (cx ++ ce)) >>
  let* cbow_sample := name "cbow_sample" g_cbow_sample in
  let* cbow := name "cbow" g_cbow in
  let* pos := name "pos" g_pos in
  let* window_size := name "window_size" g_window_size in
  let* cbow := call (Np.setitem cbow (pos - window_size) cbow_sample) in
  assign (set_cbow cbow) >>
  let* context := name "context" g_context in
  for_in skipgram_statements (Py.enumerate context) >>
  pbar_update.

(** The cell "Generate Dataset from Extracted Tokens", statement by
    statement. Its first line is [window_size = 5]; the value is an argument
    here, as it is for [generate]. *)
Definition run_cell (w : Z) : run unit :=
  assign (set_window_size w) >>
  let* tokens := global_tokens in
  let* window_size := name "window_size" g_window_size in
  let* window_size' := name "window_size" g_window_size in
  let* cbow :=
    call (Np.zeros (Py.len tokens - 2 * window_size)
            (2 * window_size' + 1)) in
  assign (set_cbow cbow) >>
  let* tokens := global_tokens in
  let* window_size := name "window_size" g_window_size in
  let* window_size' := name "window_size" g_window_size in
  let* skipgram :=
    call (Np.zeros ((Py.len tokens - 2 * window_size) * (2 * window_size'))
            2) in
  assign (set_skipgram skipgram) >>
  let* cbow := name "cbow" g_cbow in
  with_tqdm (Np.nrows cbow)
    (let* window_size := name "window_size" g_window_size in
     let* tokens := global_tokens in
     let* window_size' := name "window_size" g_window_size in
     for_in window_statements
       (Py.enumerate (Py.range window_size (Py.len tokens - window_size')))).

(** Two states of the notebook agree on what the cells above have bound. *)
Definition same_inputs (g g' : globals) : Prop :=
  g_tokens g' = g_tokens g /\ g_vocabulary g' = g_vocabulary g.

(** What the inner loop leaves as it is. *)
Definition inner_frame (g g' : globals) : Prop :=
  same_inputs g g'
  /\ g_window_size g' = g_window_size g
  /\ g_cbow g' = g_cbow g
  /\ g_pbar g' = g_pbar g
  /\ g_center_idx g' = g_center_idx g
  /\ g_pos g' = g_pos g
  /\ g_center g' = g_center g
  /\ g_context g' = g_context g
  /\ g_display g' = g_display g.

(** *** A small corpus

    Thirteen counted tokens, so that the tokens [a10] .. [a16] take the
    identifiers 10 .. 16 behind the four specials, and [zz], which was never
    counted. *)
Definition example_counts : list (string * Z) :=
  [("a4", 9); ("a5", 9); ("a6", 9); ("a7", 9); ("a8", 9); ("a9", 9);
   ("a10", 8); ("a11", 7); ("a12", 6); ("a13", 5); ("a14", 4); ("a15", 3);
   ("a16", 2)]%string.

Definition example_vocabulary : Vocab.t :=
  Vocab.mk
    ["<PAD>"; "<UNK>"; "<SOS>"; "<EOS>"; "a4"; "a5"; "a6"; "a7"; "a8"; "a9";
     "a10"; "a11"; "a12"; "a13"; "a14"; "a15"; "a16"]%string
    (Some 1).

Definition example_tokens : list string :=
  ["a10"; "a11"; "a12"; "a13"; "a14"; "a15"; "a16"]%string.

Definition short_tokens : list string := ["a10"; "a11"; "a12"]%string.

Definition unknown_tokens : list string := ["a10"; "zz"; "a12"]%string.

(** The notebook before the cell has run, and after an earlier run, at
    another radius and on other tokens, has left its bindings behind. *)
Definition fresh_notebook : globals :=
  mk_globals example_tokens example_vocabulary None None None None None None
    None None None None None None [].

Definition used_notebook : globals :=
  mk_globals example_tokens example_vocabulary (Some 3)
    (Some (Np.mk_ndarray 1 1 [[7]])) (Some (Np.mk_ndarray 1 2 [[8; 9]]))
    (Some (mk_tqdm 1 1 true)) (Some 0) (Some 3) (Some "zz"%string)
    (Some ["zz"]%string) (Some [7]) (Some 5) (Some "zz"%string)
    (Some [8; 9]) [TqdmOpen 1; TqdmUpdate 1; TqdmClose].

(** A vocabulary whose default index does not fit in 32 bits. *)
Definition wide_vocabulary : Vocab.t :=
  Vocab.mk ["a10"; "a11"; "a12"]%string (Some (2 ^ 32 + 5)).

(** ** The tables as list comprehensions

    What the loop computes, written over the sequence [ids] of the
    identifiers as stored (resolved, then cast to 32 bits): the window around
    position [k + w], the CBOW row and the Skip-gram group of that window. *)

Definition window_context {A : Type} (l : list A) (w k : nat) : list A :=
  take w (drop k l) ++ take w (drop (k + w + 1) l).

Definition cbow_row (ids : list Z) (w k : nat) : list Z :=
  window_context ids w k ++ [nth (k + w) ids 0].

Definition skipgram_group (ids : list Z) (w k : nat) : list (list Z) :=
  map (fun c => [nth (k + w) ids 0; c]) (window_context ids w k).

Definition cbow_rows (ids : list Z) (w : nat) : list (list Z) :=
  map (cbow_row ids w) (seq 0 (length ids - 2 * w)).

Definition skipgram_rows (ids : list Z) (w : nat) : list (list Z) :=
  concat (map (skipgram_group ids w) (seq 0 (length ids - 2 * w))).

(** The identifier of a token under a vocabulary whose default index is
    [d]. *)
Definition resolve (v : Vocab.t) (d : Z) (tok : string) : Z :=
  match Vocab.index_of tok (Vocab.itos v) with
  | Some i => Z.of_nat i
  | None => d
  end.

(** ** The cells before the generator *)

(** *** Cell "Process Review Files"

    An entry of [os.scandir(folder)]: a directory, or a regular file given by
    the list of tokens [process_file] returns for it (reading the file and
    the spaCy pipeline are outside this development). *)
Inductive entry : Type :=
  | Directory
  | File (sentence_tokens : list string).

(** [d.get(k)] on a dictionary kept as the list of its items, in insertion
    order. *)
Fixpoint dict_get (d : list (string * Z)) (k : string) : option Z :=
  match d with
  | [] => None
  | (k', x) :: d' => if String.eqb k k' then Some x else dict_get d' k
  end.

(** [token_counter[token]]: a [Counter] answers 0 for a missing key. *)
Definition counter_get (token_counter : list (string * Z)) (token : string)
  : Z :=
  match dict_get token_counter token with
  | Some c => c
  | None => 0
  end.

(** [token_counter[token] += 1]. *)
Definition counter_incr (token_counter : list (string * Z)) (token : string)
  : list (string * Z) :=
  Vocab.dict_set token_counter token (counter_get token_counter token + 1).

(** The locals of [process_reviews]. *)
Record reviews : Type := mk_reviews {
  r_tokens : list string;
  r_token_counter : list (string * Z);
  r_review_count : Z
}.

(** How a loop is left: by running out of items, or by [return]. *)
Inductive flow : Type :=
  | Continue (st : reviews)
  | Return (st : reviews).

(** The inner loop [for file_name in os.scandir(folder)]. *)
Fixpoint scan_entries (considered_num_reviews : Z) (entries : list entry)
    (st : reviews) : flow :=
  match entries with
  | [] => Continue st
  | Directory :: entries' => scan_entries considered_num_reviews entries' st
  | File sentence_tokens :: entries' =>
      let tokens := r_tokens st ++ sentence_tokens in
      let token_counter :=
        fold_left counter_incr sentence_tokens (r_token_counter st) in
      let review_count := r_review_count st + 1 in
      let st' := mk_reviews tokens token_counter review_count in
      if considered_num_reviews <=? review_count then Return st'
      else scan_entries considered_num_reviews entries' st'
  end.

(** The outer loop [for folder in folders]. *)
Fixpoint scan_folders (considered_num_reviews : Z)
    (folders : list (list entry)) (st : reviews) : reviews :=
  match folders with
  | [] => st
  | folder :: folders' =>
      match scan_entries considered_num_reviews folder st with
      | Return st' => st'
      | Continue st' => scan_folders considered_num_reviews folders' st'
      end
  end.

Definition process_reviews (considered_num_reviews : Z)
    (folders : list (list entry)) : list string * list (string * Z) :=
  let st := scan_folders considered_num_reviews folders (mk_reviews [] [] 0) in
  (r_tokens st, r_token_counter st).

(** The token lists of the regular files of a folder, and of all folders, in
    the order the loops meet them. *)
Fixpoint folder_files (folder : list entry) : list (list string) :=
  match folder with
  | [] => []
  | Directory :: folder' => folder_files folder'
  | File sentence_tokens :: folder' => sentence_tokens :: folder_files folder'
  end.

Definition regular_files (folders : list (list entry)) : list (list string) :=
  concat (map folder_files folders).

(** The counter agrees with the token list: one item per distinct token,
    holding the number of its occurrences. *)
Definition counts_agree (tokens : list string)
    (token_counter : list (string * Z)) : Prop :=
  NoDup (map fst token_counter)
  /\ forall tok,
       dict_get token_counter tok
       = match count_occ string_dec tokens tok with
         | O => None
         | n => Some (Z.of_nat n)
         end.

(** *** Cell "Create & Save Vocabulary", first half

    [sorted(token_counter.items(), key=lambda x: x[1], reverse=True)].
    Python's sort is stable, also under [reverse=True]; a stable sort has one
    possible result, computed here by insertion: an item goes in front of the
    items that follow it in the input and do not count more. *)
Fixpoint insert_by_count (x : string * Z) (l : list (string * Z))
  : list (string * Z) :=
  match l with
  | [] => [x]
  | y :: l' => if snd x <? snd y then y :: insert_by_count x l'
               else x :: y :: l'
  end.

Definition sorted_by_count (items : list (string * Z)) : list (string * Z) :=
  fold_right insert_by_count [] items.

(** The corpus tokens that the vocabulary keeps, behind the specials. *)
Definition vocabulary_tokens (token_counter_sorted : list (string * Z))
  : list string :=
  map fst
    (List.filter (fun kx => 1 <=? snd kx)
       (fold_left Vocab.dict_pop SPECIALS
          (token_ordered_dict token_counter_sorted))).

(** *** The notebook from the review folders to the two arrays *)
Definition notebook (considered_num_reviews : Z) (folders : list (list entry))
    (window_size : Z) : result (Np.ndarray * Np.ndarray) :=
  let '(tokens, token_counter) :=
    process_reviews considered_num_reviews folders in
  do vocabulary <- vocabulary (sorted_by_count token_counter);
  generate vocabulary tokens window_size.

(** Two folders of reviews; one token is the text of a special. *)
Definition example_folders : list (list entry) :=
  [[File ["good"; "film"; "good"]; Directory; File ["bad"; "film"]];
   [File ["good"; "plot"]; File ["<UNK>"; "end"]]]%string.

(** ** Python built-ins: lemmas *)

Lemma getitem_in_range {A : Type} (l : list A) (i : nat) (a : A) :
  l !! i = Some a -> Py.getitem l (Z.of_nat i) = Ok a.
Proof.
  intros Hl. pose proof (lookup_lt_Some _ _ _ Hl) as Hlt.
  assert (E1 : (Z.of_nat i <? 0) = false) by (apply Z.ltb_ge; lia).
  assert (E2 : (Z.of_nat (length l) <=? Z.of_nat i) = false)
    by (apply Z.leb_gt; lia).
  unfold Py.getitem, Py.len.
  rewrite E1; cbv iota zeta; rewrite E1, E2. simpl.
  rewrite Nat2Z.id, Hl. reflexivity.
Qed.

Lemma slice_in_range {A : Type} (l : list A) (a b : nat) :
  (a <= b <= length l)%nat ->
  Py.slice l (Z.of_nat a) (Z.of_nat b) = take (b - a) (drop a l).
Proof.
  intros H. unfold Py.slice, Py.clamp, Py.len. cbv zeta.
  replace (Z.of_nat a <? 0) with false by (symmetry; apply Z.ltb_ge; lia).
  replace (Z.of_nat b <? 0) with false by (symmetry; apply Z.ltb_ge; lia).
  rewrite !Z.min_l by lia.
  rewrite Nat2Z.id. f_equal. lia.
Qed.

Lemma range_empty (a b : Z) : b <= a -> Py.range a b = [].
Proof.
  intros H. unfold Py.range.
  replace (Z.to_nat (b - a)) with O by lia. reflexivity.
Qed.

Lemma range_cons (a b : Z) : a < b -> Py.range a b = a :: Py.range (a + 1) b.
Proof.
  intros H. unfold Py.range.
  replace (Z.to_nat (b - a)) with (S (Z.to_nat (b - (a + 1)))) by lia.
  rewrite <- cons_seq. simpl. f_equal; [lia|].
  rewrite <- seq_shift, map_map.
  apply map_ext. intros k. lia.
Qed.

Lemma length_window_context {A : Type} (l : list A) (w k : nat) :
  (k + 2 * w + 1 <= length l)%nat ->
  length (window_context l w k) = (2 * w)%nat.
Proof.
  intros H. unfold window_context.
  rewrite length_app, !length_take, !length_drop. lia.
Qed.

Lemma window_context_map {A B : Type} (f : A -> B) (l : list A) (w k : nat) :
  map f (window_context l w k) = window_context (map f l) w k.
Proof.
  unfold window_context.
  rewrite map_app, !skipn_map, !firstn_map. reflexivity.
Qed.

Lemma lookup_map {A B : Type} (f : A -> B) (l : list A) (i : nat) :
  map f l !! i = option_map f (l !! i).
Proof.
  revert i. induction l as [|a l IH]; intros [|i]; simpl; auto.
Qed.

Lemma length_concat_uniform {A : Type} (g : nat -> list A) (L n : nat) :
  (forall k, (k < n)%nat -> length (g k) = L) ->
  length (concat (map g (seq 0 n))) = (n * L)%nat.
Proof.
  induction n as [|n IH]; intros H; [reflexivity|].
  rewrite seq_S, map_app, concat_app, length_app, IH by (intros; apply H; lia).
  cbn [Nat.add map concat]. rewrite app_nil_r, H; lia.
Qed.

Lemma lookup_concat_uniform {A : Type} (g : nat -> list A) (L n : nat) :
  (forall k, (k < n)%nat -> length (g k) = L) ->
  forall i j, (i < n)%nat -> (j < L)%nat ->
    concat (map g (seq 0 n)) !! (i * L + j)%nat = g i !! j.
Proof.
  induction n as [|n IH]; intros H i j Hi Hj; [lia|].
  rewrite seq_S, map_app, concat_app.
  cbn [Nat.add map concat]. rewrite app_nil_r.
  assert (Hlen : length (concat (map g (seq 0 n))) = (n * L)%nat)
    by (apply length_concat_uniform; intros; apply H; lia).
  destruct (Nat.eq_dec i n) as [->|Hne].
  - rewrite lookup_app_r by lia. rewrite Hlen. f_equal. lia.
  - rewrite lookup_app_l by nia. apply IH; [intros; apply H|..]; lia.
Qed.

Lemma length_skipgram_prefix (ids : list Z) (w k : nat) :
  (k + 2 * w <= length ids)%nat ->
  length (concat (map (skipgram_group ids w) (seq 0 k))) = (k * (2 * w))%nat.
Proof.
  intros H. apply length_concat_uniform. intros i Hi.
  unfold skipgram_group. rewrite length_map, length_window_context; lia.
Qed.

(** ** Numpy and vocabulary: lemmas *)

Lemma setitem_row (a : Np.ndarray) (i : nat) (v : list Z) :
  Z.of_nat i < Np.nrows a -> Py.len v = Np.ncols a ->
  Np.setitem a (Z.of_nat i) v
  = Ok (Np.mk_ndarray (Np.nrows a) (Np.ncols a)
          (<[i := map Np.int32 v]> (Np.data a))).
Proof.
  intros Hi Hv.
  assert (E1 : (Z.of_nat i <? 0) = false) by (apply Z.ltb_ge; lia).
  assert (E2 : (Np.nrows a <=? Z.of_nat i) = false) by (apply Z.leb_gt; lia).
  assert (E3 : (Py.len v =? Np.ncols a) = true) by (apply Z.eqb_eq; exact Hv).
  unfold Np.setitem.
  rewrite E1; cbv iota zeta; rewrite E1, E2, E3. simpl.
  rewrite Nat2Z.id. reflexivity.
Qed.

Section Resolved.

Variable v : Vocab.t.
Variable d : Z.
Hypothesis Hd : Vocab.default_index v = Some d.

Lemma getitem_resolve (tok : string) :
  Vocab.getitem v tok = Ok (resolve v d tok).
Proof.
  unfold Vocab.getitem, resolve.
  destruct (Vocab.index_of tok (Vocab.itos v)); [reflexivity|].
  rewrite Hd. reflexivity.
Qed.

Lemma lookup_indices_resolve (toks : list string) :
  Vocab.lookup_indices v toks = Ok (map (resolve v d) toks).
Proof.
  unfold Vocab.lookup_indices.
  induction toks as [|tok toks IH]; simpl; [reflexivity|].
  rewrite getitem_resolve, IH. reflexivity.
Qed.

(** The inner loop writes the rows of one Skip-gram group one after the
    other, behind the rows [filled] written so far. *)
Lemma skipgram_loop_fill (w cidx : Z) (center : string) :
  forall (ctx : list string) (filled : list (list Z)) (rest j : nat) (nr : Z),
    Z.of_nat (length filled) = cidx * w * 2 + Z.of_nat j ->
    nr = Z.of_nat (length filled + length ctx + rest) ->
    for_each (skipgram_step v w cidx center)
      (Py.enumerate_from (Z.of_nat j) ctx)
      (Np.mk_ndarray nr 2 (filled ++ replicate (length ctx + rest) [0; 0]))
    = Ok (Np.mk_ndarray nr 2
            (filled
             ++ map (fun c => [Np.int32 (resolve v d center);
                               Np.int32 (resolve v d c)]) ctx
             ++ replicate rest [0; 0])).
Proof.
  induction ctx as [|c ctx IH]; intros filled rest j nr Hlen Hnr.
  - reflexivity.
  - cbn [Py.enumerate_from for_each].
    unfold skipgram_step at 1.
    rewrite !lookup_indices_resolve. cbn [bind map app].
    rewrite <- Hlen.
    rewrite setitem_row.
    2:{ cbn [Np.nrows]. subst nr. cbn [length]. lia. }
    2:{ reflexivity. }
    cbn [bind Np.nrows Np.ncols Np.data map].
    rewrite insert_app_r_alt by lia.
    rewrite Nat.sub_diag. cbn [length Nat.add replicate].
    change (<[0%nat := ?x]> (?y :: ?l)) with (x :: l).
    replace (Z.of_nat j + 1) with (Z.of_nat (S j)) by lia.
    rewrite (cons_middle _ filled), app_assoc.
    rewrite IH.
    + rewrite <- app_assoc. reflexivity.
    + rewrite length_app. cbn [length]. lia.
    + rewrite length_app. cbn [length]. subst nr. cbn [length]. lia.
Qed.

(** The outer loop: after [k] windows the first [k] CBOW rows and the
    first [k] Skip-gram groups are written and the rest is still zero. *)
Lemma window_loop_fill (tokens : list string) (w : nat) :
  let ids := map Np.int32 (map (resolve v d) tokens) in
  let R := (length tokens - 2 * w)%nat in
  let nr := Py.len tokens - 2 * Z.of_nat w in
  forall (m k : nat),
    (2 * w <= length tokens)%nat ->
    (k + m = R)%nat ->
    for_each (window_step v tokens (Z.of_nat w))
      (Py.enumerate_from (Z.of_nat k)
         (Py.range (Z.of_nat w + Z.of_nat k) (Py.len tokens - Z.of_nat w)))
      (Np.mk_ndarray nr (2 * Z.of_nat w + 1)
         (map (cbow_row ids w) (seq 0 k)
          ++ replicate m (replicate (Z.to_nat (2 * Z.of_nat w + 1)) 0)),
       Np.mk_ndarray (nr * (2 * Z.of_nat w)) 2
         (concat (map (skipgram_group ids w) (seq 0 k))
          ++ replicate (m * (2 * w)) [0; 0]))
    = Ok (Np.mk_ndarray nr (2 * Z.of_nat w + 1) (cbow_rows ids w),
          Np.mk_ndarray (nr * (2 * Z.of_nat w)) 2 (skipgram_rows ids w)).
Proof.
  intros ids R nr m.
  assert (Hids : length ids = length tokens)
    by (unfold ids; rewrite !length_map; reflexivity).
  induction m as [|m IH]; intros k Hw Hk.
  - rewrite range_empty by (unfold Py.len; lia).
    cbn [Py.enumerate_from for_each replicate Nat.mul].
    rewrite !app_nil_r. unfold cbow_rows, skipgram_rows.
    rewrite Hids. replace k with R by lia. reflexivity.
  - rewrite range_cons by (unfold Py.len; lia).
    cbn [Py.enumerate_from for_each].
    destruct (lookup_lt_is_Some_2 tokens (k + w)) as [center Hc]; [lia|].
    assert (Hci : nth (k + w) ids 0 = Np.int32 (resolve v d center)).
    { apply nth_lookup_Some. unfold ids. rewrite !lookup_map, Hc.
      reflexivity. }
    unfold window_step at 1.
    replace (Z.of_nat w + Z.of_nat k - Z.of_nat w) with (Z.of_nat k) by lia.
    replace (Z.of_nat w + Z.of_nat k + Z.of_nat w + 1)
      with (Z.of_nat (k + w + 1 + w)) by lia.
    replace (Z.of_nat w + Z.of_nat k + 1) with (Z.of_nat (k + w + 1)) by lia.
    replace (Z.of_nat w + Z.of_nat k) with (Z.of_nat (k + w)) by lia.
    rewrite (getitem_in_range _ _ _ Hc). cbn [bind].
    rewrite !slice_in_range by lia.
    replace (k + w - k)%nat with w by lia.
    replace (k + w + 1 + w - (k + w + 1))%nat with w by lia.
    fold (window_context tokens w k).
    rewrite !lookup_indices_resolve. cbn [bind].
    assert (Hctx : length (window_context tokens w k) = (2 * w)%nat)
      by (apply length_window_context; lia).
    rewrite setitem_row.
    2:{ cbn [Np.nrows]. unfold nr, Py.len. lia. }
    2:{ cbn [Np.ncols]. unfold Py.len.
        rewrite length_app, length_map, Hctx. cbn [length map]. lia. }
    cbn [bind Np.nrows Np.ncols Np.data map].
    rewrite insert_app_r_alt by (rewrite length_map, length_seq; lia).
    rewrite length_map, length_seq, Nat.sub_diag.
    cbn [replicate].
    change (<[0%nat := ?x]> (?y :: ?l)) with (x :: l).
    unfold skipgram_loop, Py.enumerate.
    replace (S m * (2 * w))%nat
      with (length (window_context tokens w k) + m * (2 * w))%nat by lia.
    change 0 with (Z.of_nat 0) at 1.
    rewrite skipgram_loop_fill.
    2:{ rewrite length_skipgram_prefix by lia. lia. }
    2:{ rewrite length_skipgram_prefix by lia. unfold nr, Py.len. nia. }
    cbn [bind].
    replace (Z.of_nat k + 1) with (Z.of_nat (S k)) by lia.
    replace (Z.of_nat (k + w + 1)) with (Z.of_nat w + Z.of_nat (S k)) by lia.
    rewrite <- (IH (S k)) by lia.
    rewrite !seq_S, !map_app, concat_app. cbn [Nat.add map concat].
    rewrite app_nil_r, <- !app_assoc. cbn [app].
    unfold cbow_row, skipgram_group. rewrite Hci.
    assert (E : window_context ids w k
                = map Np.int32
                    (map (resolve v d) (window_context tokens w k))).
    { unfold ids. rewrite !window_context_map. reflexivity. }
    rewrite E, !map_map. reflexivity.
Qed.

End Resolved.

(** ** The generator as a whole *)

(** With a default index set and [0 <= window_size <= len(tokens) / 2] the
    cell runs to its end, and the arrays it leaves are the two list
    comprehensions, cast to 32 bits. *)
Lemma generate_ok (v : Vocab.t) (d : Z) (tokens : list string)
    (window_size : Z) :
  Vocab.default_index v = Some d ->
  0 <= window_size -> 2 * window_size <= Py.len tokens ->
  generate v tokens window_size
  = Ok (Np.mk_ndarray (Py.len tokens - 2 * window_size) (2 * window_size + 1)
          (cbow_rows (map Np.int32 (map (resolve v d) tokens))
             (Z.to_nat window_size)),
        Np.mk_ndarray
          ((Py.len tokens - 2 * window_size) * (2 * window_size)) 2
          (skipgram_rows (map Np.int32 (map (resolve v d) tokens))
             (Z.to_nat window_size))).
Proof.
  intros Hd Hw Hn.
  rewrite <- (Z2Nat.id window_size) by exact Hw.
  rewrite Nat2Z.id.
  set (w := Z.to_nat window_size) in *.
  assert (Hn' : (2 * w <= length tokens)%nat) by (unfold Py.len in Hn; lia).
  unfold generate, Np.zeros.
  replace (Py.len tokens - 2 * Z.of_nat w <? 0) with false
    by (symmetry; apply Z.ltb_ge; unfold Py.len; lia).
  replace (2 * Z.of_nat w + 1 <? 0) with false
    by (symmetry; apply Z.ltb_ge; lia).
  replace ((Py.len tokens - 2 * Z.of_nat w) * (2 * Z.of_nat w) <? 0) with false
    by (symmetry; apply Z.ltb_ge; unfold Py.len; nia).
  cbn [orb bind]. unfold Py.enumerate.
  pose proof (window_loop_fill v d Hd tokens w
                (length tokens - 2 * w) 0 Hn' eq_refl) as H.
  cbn zeta in H. cbn [seq map concat app] in H.
  replace (Z.of_nat w + Z.of_nat 0) with (Z.of_nat w) in H by lia.
  change (Z.of_nat 0) with 0 in H.
  replace (Z.to_nat (Py.len tokens - 2 * Z.of_nat w))
    with (length tokens - 2 * w)%nat by (unfold Py.len; lia).
  replace (Z.to_nat ((Py.len tokens - 2 * Z.of_nat w) * (2 * Z.of_nat w)))
    with ((length tokens - 2 * w) * (2 * w))%nat by (unfold Py.len; nia).
  exact H.
Qed.

Lemma generate_negative_window (v : Vocab.t) (tokens : list string)
    (window_size : Z) :
  window_size < 0 -> generate v tokens window_size = Raise ValueError.
Proof.
  intros Hw. unfold generate, Np.zeros.
  replace (2 * window_size + 1 <? 0) with true
    by (symmetry; apply Z.ltb_lt; lia).
  rewrite orb_true_r. reflexivity.
Qed.

Lemma generate_short (v : Vocab.t) (tokens : list string) (window_size : Z) :
  Py.len tokens < 2 * window_size ->
  generate v tokens window_size = Raise ValueError.
Proof.
  intros Hn. unfold generate, Np.zeros.
  replace (Py.len tokens - 2 * window_size <? 0) with true
    by (symmetry; apply Z.ltb_lt; lia).
  reflexivity.
Qed.

(** The cell returns only inside the domain of [generate_ok]. *)
Lemma generate_Ok_inv (v : Vocab.t) (tokens : list string) (window_size : Z)
    (arrays : Np.ndarray * Np.ndarray) :
  generate v tokens window_size = Ok arrays ->
  0 <= window_size /\ 2 * window_size <= Py.len tokens.
Proof.
  intros H.
  destruct (Z.lt_ge_cases window_size 0) as [Hw|Hw].
  { rewrite generate_negative_window in H by exact Hw. discriminate. }
  destruct (Z.lt_ge_cases (Py.len tokens) (2 * window_size)) as [Hn|Hn].
  { rewrite generate_short in H by exact Hn. discriminate. }
  split; assumption.
Qed.

(** ** The notebook's vocabulary *)

Lemma length_dict_set (d : list (string * Z)) (k : string) (x : Z) :
  (length (Vocab.dict_set d k x) <= S (length d))%nat.
Proof.
  induction d as [|[k' x'] d IH]; cbn [Vocab.dict_set length]; [lia|].
  destruct (String.eqb k k'); cbn [length]; lia.
Qed.

Lemma length_OrderedDict (items : list (string * Z)) :
  (length (Vocab.OrderedDict items) <= length items)%nat.
Proof.
  unfold Vocab.OrderedDict.
  assert (H : forall acc : list (string * Z),
             (length (fold_left (fun d kx => Vocab.dict_set d (fst kx) (snd kx))
                        items acc) <= length acc + length items)%nat).
  { induction items as [|kx items IH]; intros acc; cbn [fold_left length];
      [lia|].
    specialize (IH (Vocab.dict_set acc (fst kx) (snd kx))).
    pose proof (length_dict_set acc (fst kx) (snd kx)). lia. }
  apply (H []).
Qed.

Lemma length_dict_pops (specials : list string) (d : list (string * Z)) :
  (length (fold_left Vocab.dict_pop specials d) <= length d)%nat.
Proof.
  revert d. induction specials as [|k specials IH]; intros d;
    cbn [fold_left]; [lia|].
  specialize (IH (Vocab.dict_pop d k)).
  pose proof (filter_length_le (fun kx => negb (String.eqb k (fst kx))) d).
  unfold Vocab.dict_pop in *. lia.
Qed.

Lemma length_slice_prefix {A : Type} (l : list A) (n : Z) :
  0 <= n -> (length (Py.slice l 0 n) <= Z.to_nat n)%nat.
Proof.
  intros Hn. unfold Py.slice, Py.clamp.
  replace (0 <? 0) with false by reflexivity.
  replace (n <? 0) with false by (symmetry; apply Z.ltb_ge; lia).
  cbv zeta. pose proof (firstn_le_length
    (Z.to_nat (Z.min n (Py.len l) - Z.min 0 (Py.len l)))
    (drop (Z.to_nat (Z.min 0 (Py.len l))) l)).
  unfold Py.len in *. lia.
Qed.

Lemma index_of_lt (tok : string) (l : list string) (i : nat) :
  Vocab.index_of tok l = Some i -> (i < length l)%nat.
Proof.
  revert i. induction l as [|s l IH]; intros i; cbn [Vocab.index_of length];
    [discriminate|].
  destruct (String.eqb tok s).
  - intros [= <-]. lia.
  - destruct (Vocab.index_of tok l) as [j|]; [|discriminate].
    intros [= <-]. specialize (IH j eq_refl). lia.
Qed.

(** The vocabulary of the notebook always exists; its default index is the
    index 1 of [<UNK>], and it holds the four specials and at most
    [TOP_TOKENS] corpus tokens. *)
Lemma vocabulary_inv (token_counter_sorted : list (string * Z)) (v : Vocab.t) :
  vocabulary token_counter_sorted = Ok v ->
  Vocab.default_index v = Some 1 /\ 4 <= Vocab.len v <= 20004.
Proof.
  unfold vocabulary, Vocab.vocab.
  set (rest := map fst _).
  change (Vocab.getitem (Vocab.mk (SPECIALS ++ rest) None) UNK_TOKEN)
    with (@Ok Z 1).
  cbn [bind]. intros [= <-]. split; [reflexivity|].
  unfold Vocab.len, Py.len, Vocab.set_default_index.
  cbn [Vocab.itos length].
  assert (length rest <= Z.to_nat TOP_TOKENS)%nat;
    [|unfold TOP_TOKENS in *; lia].
  unfold rest. rewrite length_map.
  etransitivity; [apply filter_length_le|].
  etransitivity; [apply length_dict_pops|].
  unfold token_ordered_dict.
  etransitivity; [apply length_OrderedDict|].
  apply length_slice_prefix. unfold TOP_TOKENS. lia.
Qed.

Lemma vocabulary_total (token_counter_sorted : list (string * Z)) :
  exists v, vocabulary token_counter_sorted = Ok v.
Proof.
  unfold vocabulary, Vocab.vocab.
  set (rest := map fst _).
  change (Vocab.getitem (Vocab.mk (SPECIALS ++ rest) None) UNK_TOKEN)
    with (@Ok Z 1).
  eexists. reflexivity.
Qed.

Lemma vocabulary_unk (token_counter_sorted : list (string * Z)) (v : Vocab.t) :
  vocabulary token_counter_sorted = Ok v -> Vocab.getitem v UNK_TOKEN = Ok 1.
Proof.
  unfold vocabulary, Vocab.vocab.
  set (rest := map fst _).
  change (Vocab.getitem (Vocab.mk (SPECIALS ++ rest) None) UNK_TOKEN)
    with (@Ok Z 1).
  cbn [bind]. intros [= <-]. reflexivity.
Qed.

Lemma getitem_absent (v : Vocab.t) (d : Z) (tok : string) :
  Vocab.default_index v = Some d ->
  Vocab.index_of tok (Vocab.itos v) = None ->
  Vocab.getitem v tok = Ok d.
Proof.
  intros Hd Htok. unfold Vocab.getitem. rewrite Htok, Hd. reflexivity.
Qed.

Lemma resolve_range (v : Vocab.t) (d : Z) (tok : string) :
  0 <= d < Vocab.len v -> 0 <= resolve v d tok < Vocab.len v.
Proof.
  intros Hdef. unfold resolve.
  destruct (Vocab.index_of tok (Vocab.itos v)) as [i|] eqn:E; [|exact Hdef].
  apply index_of_lt in E. unfold Vocab.len, Py.len. lia.
Qed.

Lemma int32_small (z : Z) : - 2 ^ 31 <= z < 2 ^ 31 -> Np.int32 z = z.
Proof.
  intros H. unfold Np.int32. rewrite Z.mod_small; lia.
Qed.

Lemma int32_range (z : Z) : - 2 ^ 31 <= Np.int32 z < 2 ^ 31.
Proof.
  unfold Np.int32.
  pose proof (Z.mod_pos_bound (z + 2 ^ 31) (2 ^ 32) ltac:(lia)). lia.
Qed.

Lemma map_int32_small (l : list Z) :
  Forall (fun z => - 2 ^ 31 <= z < 2 ^ 31) l -> map Np.int32 l = l.
Proof.
  induction 1 as [|z l Hz _ IH]; cbn [map]; [reflexivity|].
  rewrite int32_small, IH by exact Hz. reflexivity.
Qed.

(** ** Rows and columns of the comprehensions *)

Section Rows.

Variable ids : list Z.
Variable w : nat.

Lemma length_cbow_rows : length (cbow_rows ids w) = (length ids - 2 * w)%nat.
Proof. unfold cbow_rows. rewrite length_map, length_seq. reflexivity. Qed.

Lemma length_cbow_row (k : nat) :
  (k + 2 * w < length ids)%nat ->
  length (cbow_row ids w k) = (2 * w + 1)%nat.
Proof.
  intros H. unfold cbow_row.
  rewrite length_app, length_window_context by lia. reflexivity.
Qed.

Lemma lookup_cbow_rows (i : nat) :
  (i + 2 * w < length ids)%nat ->
  cbow_rows ids w !! i = Some (cbow_row ids w i).
Proof.
  intros H. unfold cbow_rows.
  rewrite lookup_map, lookup_seq_lt by lia. reflexivity.
Qed.

Lemma lookup_window_left (i j : nat) :
  (j < w)%nat -> window_context ids w i !! j = ids !! (i + j)%nat.
Proof.
  intros H. unfold window_context.
  destruct (ids !! (i + j)%nat) as [x|] eqn:E.
  - apply lookup_app_l_Some.
    rewrite lookup_take_lt, lookup_drop by lia. exact E.
  - apply lookup_ge_None in E. apply lookup_ge_None.
    rewrite length_app, !length_take, !length_drop. lia.
Qed.

Lemma lookup_window_right (i j : nat) :
  (i + w <= length ids)%nat -> (j < w)%nat ->
  window_context ids w i !! (w + j)%nat = ids !! (i + w + 1 + j)%nat.
Proof.
  intros Hi Hj. unfold window_context.
  rewrite lookup_app_r by (rewrite length_take, length_drop; lia).
  rewrite length_take, length_drop.
  replace (w + j - w `min` (length ids - i))%nat with j by lia.
  rewrite lookup_take_lt, lookup_drop by lia. reflexivity.
Qed.

Lemma lookup_cbow_row_context (i j : nat) :
  (i + 2 * w < length ids)%nat -> (j < 2 * w)%nat ->
  cbow_row ids w i !! j = window_context ids w i !! j.
Proof.
  intros Hi Hj. unfold cbow_row.
  apply lookup_app_l. rewrite length_window_context; lia.
Qed.

Lemma lookup_cbow_row_center (i : nat) :
  (i + 2 * w < length ids)%nat ->
  cbow_row ids w i !! (2 * w)%nat = ids !! (i + w)%nat.
Proof.
  intros Hi. unfold cbow_row.
  rewrite list_lookup_middle by (rewrite length_window_context; lia).
  destruct (nth_lookup_or_length ids (i + w) 0) as [E|E]; [|lia].
  symmetry. exact E.
Qed.

Lemma length_skipgram_rows :
  length (skipgram_rows ids w)
  = ((length ids - 2 * w) * (2 * w))%nat.
Proof.
  unfold skipgram_rows.
  destruct (Nat.le_gt_cases (2 * w) (length ids)) as [H|H].
  - apply length_skipgram_prefix. lia.
  - replace (length ids - 2 * w)%nat with O by lia. reflexivity.
Qed.

Lemma lookup_skipgram_rows (i j : nat) :
  (i + 2 * w < length ids)%nat -> (j < 2 * w)%nat ->
  skipgram_rows ids w !! (i * (2 * w) + j)%nat
  = option_map (fun c => [nth (i + w) ids 0; c])
      (window_context ids w i !! j).
Proof.
  intros Hi Hj. unfold skipgram_rows.
  rewrite (lookup_concat_uniform (skipgram_group ids w) (2 * w)); [|..|lia|lia].
  - unfold skipgram_group. apply lookup_map.
  - intros k Hk. unfold skipgram_group.
    rewrite length_map, length_window_context; lia.
Qed.

End Rows.

(** Under the notebook's vocabulary the stored identifiers are the resolved
    ones: every index is below [len(vocabulary) <= 20004], so that the cast
    to 32 bits changes nothing. *)
Lemma notebook_ids (token_counter_sorted : list (string * Z)) (v : Vocab.t)
    (tokens : list string) (ids : list Z) :
  vocabulary token_counter_sorted = Ok v ->
  Vocab.lookup_indices v tokens = Ok ids ->
  ids = map (resolve v 1) tokens
  /\ Forall (fun id => 0 <= id < Vocab.len v) ids
  /\ map Np.int32 ids = ids.
Proof.
  intros Hv Hids. destruct (vocabulary_inv _ _ Hv) as [Hd Hlen].
  rewrite (lookup_indices_resolve v 1 Hd) in Hids. injection Hids as <-.
  assert (Hr : Forall (fun id => 0 <= id < Vocab.len v)
                 (map (resolve v 1) tokens)).
  { apply Forall_map, Forall_forall. intros tok _.
    apply resolve_range. lia. }
  repeat split; [exact Hr|].
  apply map_int32_small. eapply Forall_impl; [exact Hr|].
  cbv beta. intros id Hid. lia.
Qed.

Lemma notebook_generate (token_counter_sorted : list (string * Z))
    (v : Vocab.t) (tokens : list string) (ids : list Z) (window_size : Z) :
  vocabulary token_counter_sorted = Ok v ->
  Vocab.lookup_indices v tokens = Ok ids ->
  0 <= window_size -> 2 * window_size <= Py.len tokens ->
  generate v tokens window_size
  = Ok (Np.mk_ndarray (Py.len tokens - 2 * window_size) (2 * window_size + 1)
          (cbow_rows ids (Z.to_nat window_size)),
        Np.mk_ndarray
          ((Py.len tokens - 2 * window_size) * (2 * window_size)) 2
          (skipgram_rows ids (Z.to_nat window_size)))
  /\ length ids = length tokens.
Proof.
  intros Hv Hids Hw Hn.
  destruct (notebook_ids _ _ _ _ Hv Hids) as (E & _ & E32).
  destruct (vocabulary_inv _ _ Hv) as [Hd _].
  rewrite (generate_ok v 1 tokens window_size Hd Hw Hn).
  rewrite <- E, E32. split; [reflexivity|].
  rewrite E. apply length_map.
Qed.

Lemma getitem_same {A : Type} (l1 l2 : list A) (a b : Z) :
  0 <= a -> 0 <= b < Py.len l2 ->
  l1 !! Z.to_nat a = l2 !! Z.to_nat b ->
  exists x, Py.getitem l2 b = Ok x /\ Py.getitem l1 a = Ok x.
Proof.
  intros Ha Hb E.
  destruct (lookup_lt_is_Some_2 l2 (Z.to_nat b)) as [x Hx];
    [unfold Py.len in Hb; lia|].
  exists x. rewrite <- (Z2Nat.id a), <- (Z2Nat.id b) by lia.
  split; apply getitem_in_range; congruence.
Qed.

Section Entries.

Variable P : Z -> Prop.
Variable ids : list Z.
Variable w : nat.
Hypothesis Hids : Forall P ids.
Hypothesis Hzero : P 0.

Lemma Forall_window_context (k : nat) : Forall P (window_context ids w k).
Proof.
  unfold window_context.
  apply Forall_app; split; apply Forall_take, Forall_drop, Hids.
Qed.

Lemma nth_Forall (k : nat) : P (nth k ids 0).
Proof.
  destruct (nth_in_or_default k ids 0) as [Hin| ->]; [|exact Hzero].
  rewrite List.Forall_forall in Hids. apply Hids, Hin.
Qed.

Lemma Forall_cbow_rows : Forall (Forall P) (cbow_rows ids w).
Proof.
  unfold cbow_rows. apply Forall_map, Forall_forall. intros k _.
  unfold cbow_row. apply Forall_app; split.
  - apply Forall_window_context.
  - repeat constructor. apply nth_Forall.
Qed.

Lemma Forall_skipgram_rows : Forall (Forall P) (skipgram_rows ids w).
Proof.
  unfold skipgram_rows. apply Forall_concat, Forall_map, Forall_forall.
  intros k _. unfold skipgram_group. apply Forall_map.
  eapply Forall_impl; [apply Forall_window_context|].
  cbv beta. intros c Hc. repeat constructor; [apply nth_Forall|exact Hc].
Qed.

End Entries.

(** With [window_size = 0] every window is empty: one CBOW column, the
    center, and no Skip-gram row. *)
Lemma cbow_rows_zero (ids : list Z) :
  cbow_rows ids 0 = map (fun id => [id]) ids.
Proof.
  apply list_eq. intros i. unfold cbow_rows.
  rewrite !lookup_map. cbn [Nat.mul]. rewrite Nat.sub_0_r.
  destruct (ids !! i) as [x|] eqn:E.
  - rewrite lookup_seq_lt by (eapply lookup_lt_Some; exact E).
    cbn [option_map Nat.add]. unfold cbow_row, window_context.
    cbn [take app]. rewrite Nat.add_0_r, (nth_lookup_Some _ _ _ _ E).
    reflexivity.
  - apply lookup_ge_None in E. rewrite lookup_seq_ge by lia. reflexivity.
Qed.

Lemma skipgram_rows_zero (ids : list Z) : skipgram_rows ids 0 = [].
Proof.
  apply nil_length_inv. rewrite length_skipgram_rows. lia.
Qed.

(** ** The cell, statement by statement, against [generate] *)

Ltac run_step :=
  cbv beta iota zeta delta
    [and_then assign name call value global_tokens global_vocabulary
     g_tokens g_vocabulary g_window_size g_cbow g_skipgram g_pbar
     g_center_idx g_pos g_center g_context g_cbow_sample g_idx g_c
     g_skipgram_sample g_display
     set_window_size set_cbow set_skipgram set_pbar set_center_idx set_pos
     set_center set_context set_cbow_sample set_idx set_c
     set_skipgram_sample show bind fst snd].

Ltac frame :=
  unfold inner_frame, same_inputs in *; cbn in *; intuition congruence.

Lemma skipgram_statements_refine (g : globals) (sg : Np.ndarray)
    (ctr : string) (ci w : Z) (it : Z * string) :
  g_skipgram g = Some sg -> g_center g = Some ctr ->
  g_center_idx g = Some ci -> g_window_size g = Some w ->
  match skipgram_step (g_vocabulary g) w ci ctr sg it with
  | Ok sg' =>
      exists g', skipgram_statements it g = (Done tt, g')
                 /\ inner_frame g g' /\ g_skipgram g' = Some sg'
  | Raise e =>
      exists g', skipgram_statements it g = (Failed (Raised e), g')
                 /\ same_inputs g g'
  end.
Proof.
  destruct g, it as [i x]. cbn [g_skipgram g_center g_center_idx
    g_window_size g_vocabulary]. intros -> -> -> ->.
  unfold skipgram_step, skipgram_statements. run_step.
  destruct (Vocab.lookup_indices _ [ctr]) as [ce|e]; run_step.
  2:{ eexists. split; [reflexivity|frame]. }
  destruct (Vocab.lookup_indices _ [x]) as [cx|e]; run_step.
  2:{ eexists. split; [reflexivity|frame]. }
  destruct (Np.setitem _ _ _) as [sg'|e]; run_step.
  2:{ eexists. split; [reflexivity|frame]. }
  eexists. split; [reflexivity|]. split; [frame|reflexivity].
Qed.

Lemma skipgram_loop_refine (items : list (Z * string)) :
  forall (g : globals) (sg : Np.ndarray) (ctr : string) (ci w : Z),
    g_skipgram g = Some sg -> g_center g = Some ctr ->
    g_center_idx g = Some ci -> g_window_size g = Some w ->
    match for_each (skipgram_step (g_vocabulary g) w ci ctr) items sg with
    | Ok sg' =>
        exists g', for_in skipgram_statements items g = (Done tt, g')
                   /\ inner_frame g g' /\ g_skipgram g' = Some sg'
    | Raise e =>
        exists g', for_in skipgram_statements items g = (Failed (Raised e), g')
                   /\ same_inputs g g'
    end.
Proof.
  induction items as [|it items IH]; intros g sg ctr ci w Hsg Hctr Hci Hw;
    cbn [for_each for_in].
  - exists g. split; [reflexivity|]. split; [frame|exact Hsg].
  - pose proof (skipgram_statements_refine g sg ctr ci w it Hsg Hctr Hci Hw)
      as H1.
    unfold and_then. cbv beta.
    destruct (skipgram_step (g_vocabulary g) w ci ctr sg it) as [sg1|e];
      cbn [bind]; destruct H1 as (g1 & -> & H1).
    2:{ exists g1. split; [reflexivity|exact H1]. }
    destruct H1 as [Hf1 Hsg1].
    assert (Hv : g_vocabulary g1 = g_vocabulary g) by frame.
    specialize (IH g1 sg1 ctr ci w Hsg1 ltac:(frame) ltac:(frame)
                  ltac:(frame)).
    rewrite Hv in IH.
    destruct (for_each _ items sg1) as [sg2|e];
      destruct IH as (g2 & -> & H2); exists g2;
      (split; [reflexivity|]).
    + destruct H2 as [Hf2 Hsg2]. split; [frame|exact Hsg2].
    + frame.
Qed.

Lemma window_statements_refine (g : globals) (cb sg : Np.ndarray)
    (bar : tqdm) (w : Z) (it : Z * Z) :
  g_window_size g = Some w -> g_cbow g = Some cb ->
  g_skipgram g = Some sg -> g_pbar g = Some bar ->
  match window_step (g_vocabulary g) (g_tokens g) w (cb, sg) it with
  | Ok (cb', sg') =>
      exists g', window_statements it g = (Done tt, g')
                 /\ same_inputs g g'
                 /\ g_window_size g' = Some w
                 /\ g_cbow g' = Some cb'
                 /\ g_skipgram g' = Some sg'
                 /\ g_pbar g'
                    = Some (mk_tqdm (bar_total bar) (bar_n bar + 1)
                              (bar_closed bar))
                 /\ g_display g' = g_display g ++ [TqdmUpdate 1]
                 /\ g_center_idx g' = Some (fst it)
                 /\ g_pos g' = Some (snd it)
  | Raise e =>
      exists g', window_statements it g = (Failed (Raised e), g')
                 /\ same_inputs g g'
  end.
Proof.
  destruct g, it as [k p]. cbn [g_window_size g_cbow g_skipgram g_pbar
    g_vocabulary g_tokens fst snd]. intros -> -> -> ->.
  unfold window_step, window_statements, skipgram_loop. run_step.
  destruct (Py.getitem _ p) as [center|e]; run_step.
  2:{ eexists. split; [reflexivity|frame]. }
  destruct (Vocab.lookup_indices _ (_ ++ _)) as [cx|e]; run_step.
  2:{ eexists. split; [reflexivity|frame]. }
  destruct (Vocab.lookup_indices _ [center]) as [ce|e]; run_step.
  2:{ eexists. split; [reflexivity|frame]. }
  destruct (Np.setitem cb _ _) as [cb'|e]; run_step.
  2:{ eexists. split; [reflexivity|frame]. }
  match goal with
  | |- context [for_in skipgram_statements ?items ?g] =>
      pose proof (skipgram_loop_refine items g sg center k w
                    eq_refl eq_refl eq_refl eq_refl) as H;
      cbn [g_vocabulary] in H;
      destruct (for_in skipgram_statements items g) as [out g1]
  end.
  destruct (for_each _ _ sg) as [sg'|e]; run_step;
    destruct H as (g' & [= -> ->] & H).
  2:{ eexists. split; [reflexivity|frame]. }
  destruct H as [Hf Hsg]. destruct g'.
  unfold inner_frame, same_inputs in Hf. cbn in Hf, Hsg.
  destruct Hf as ((-> & ->) & -> & -> & -> & -> & -> & -> & -> & ->).
  subst. unfold pbar_update. run_step.
  eexists. split; [reflexivity|]. run_step. repeat split.
Qed.

Lemma window_loop_refine (items : list (Z * Z)) :
  forall (g : globals) (cb sg : Np.ndarray) (bar : tqdm) (w : Z),
    g_window_size g = Some w -> g_cbow g = Some cb ->
    g_skipgram g = Some sg -> g_pbar g = Some bar ->
    match for_each (window_step (g_vocabulary g) (g_tokens g) w) items
            (cb, sg) with
    | Ok (cb', sg') =>
        exists g', for_in window_statements items g = (Done tt, g')
                   /\ same_inputs g g'
                   /\ g_window_size g' = Some w
                   /\ g_cbow g' = Some cb'
                   /\ g_skipgram g' = Some sg'
                   /\ g_pbar g'
                      = Some (mk_tqdm (bar_total bar)
                                (bar_n bar + Py.len items) (bar_closed bar))
                   /\ g_display g'
                      = g_display g
                        ++ replicate (length items) (TqdmUpdate 1)
                   /\ g_center_idx g'
                      = match last items with
                        | Some it => Some (fst it)
                        | None => g_center_idx g
                        end
                   /\ g_pos g'
                      = match last items with
                        | Some it => Some (snd it)
                        | None => g_pos g
                        end
    | Raise e =>
        exists g', for_in window_statements items g = (Failed (Raised e), g')
                   /\ same_inputs g g'
    end.
Proof.
  induction items as [|it items IH]; intros g cb sg bar w Hw Hcb Hsg Hbar;
    cbn [for_each for_in].
  - exists g. split; [reflexivity|]. split; [frame|].
    cbn [length replicate last]. rewrite app_nil_r.
    unfold Py.len. cbn [length]. rewrite Z.add_0_r.
    destruct bar. repeat split; assumption.
  - pose proof (window_statements_refine g cb sg bar w it Hw Hcb Hsg Hbar)
      as H1.
    unfold and_then. cbv beta.
    destruct (window_step (g_vocabulary g) (g_tokens g) w (cb, sg) it)
      as [[cb1 sg1]|e]; cbn [bind]; destruct H1 as (g1 & -> & H1).
    2:{ exists g1. split; [reflexivity|exact H1]. }
    destruct H1 as ((Ht & Hv) & Hw1 & Hcb1 & Hsg1 & Hbar1 & Hd1 & Hci1 & Hp1).
    specialize (IH g1 cb1 sg1 _ w Hw1 Hcb1 Hsg1 Hbar1).
    rewrite Ht, Hv in IH.
    destruct (for_each _ items (cb1, sg1)) as [[cb2 sg2]|e];
      destruct IH as (g2 & -> & H2); exists g2;
      (split; [reflexivity|]).
    2:{ frame. }
    destruct H2 as (Hin & Hw2 & Hcb2 & Hsg2 & Hbar2 & Hd2 & Hci2 & Hp2).
    split; [frame|]. do 3 (split; [assumption|]).
    split; [|split; [|split]].
    + rewrite Hbar2. cbn [bar_total bar_n bar_closed]. unfold Py.len.
      cbn [length]. do 2 f_equal. lia.
    + rewrite Hd2, Hd1, <- app_assoc. reflexivity.
    + rewrite Hci2, Hci1, last_cons. destruct (last items); reflexivity.
    + rewrite Hp2, Hp1, last_cons. destruct (last items); reflexivity.
Qed.

Lemma lookup_enumerate_from {A : Type} (l : list A) (k : Z) (i : nat) :
  Py.enumerate_from k l !! i
  = option_map (fun a => (k + Z.of_nat i, a)) (l !! i).
Proof.
  revert k i. induction l as [|a l IH]; intros k [|i];
    cbn [Py.enumerate_from]; try reflexivity.
  - cbn. rewrite Z.add_0_r. reflexivity.
  - cbn [lookup list_lookup]. rewrite IH.
    destruct (l !! i); cbn [option_map]; [|reflexivity].
    do 2 f_equal. lia.
Qed.

Lemma length_enumerate_from {A : Type} (l : list A) (k : Z) :
  length (Py.enumerate_from k l) = length l.
Proof.
  revert k. induction l as [|a l IH]; intros k; cbn [Py.enumerate_from length];
    [reflexivity|].
  rewrite IH. reflexivity.
Qed.

Lemma length_range (a b : Z) : length (Py.range a b) = Z.to_nat (b - a).
Proof. unfold Py.range. rewrite length_map, length_seq. reflexivity. Qed.

Lemma last_enumerate_range (a b : Z) :
  a < b -> last (Py.enumerate (Py.range a b)) = Some (b - a - 1, b - 1).
Proof.
  intros H. unfold Py.enumerate.
  rewrite last_lookup, length_enumerate_from, length_range,
    lookup_enumerate_from.
  unfold Py.range. rewrite lookup_map, lookup_seq_lt by lia.
  cbn [option_map]. do 2 f_equal; lia.
Qed.

Lemma run_cell_refine (w : Z) (g : globals) :
  let R := Py.len (g_tokens g) - 2 * w in
  match generate (g_vocabulary g) (g_tokens g) w with
  | Ok (cbow, skipgram) =>
      exists g', run_cell w g = (Done tt, g')
                 /\ same_inputs g g'
                 /\ g_window_size g' = Some w
                 /\ g_cbow g' = Some cbow
                 /\ g_skipgram g' = Some skipgram
                 /\ g_pbar g' = Some (mk_tqdm R R true)
                 /\ g_display g'
                    = g_display g
                      ++ [TqdmOpen R]
                      ++ replicate (Z.to_nat R) (TqdmUpdate 1)
                      ++ [TqdmClose]
                 /\ (0 < R ->
                     g_center_idx g' = Some (R - 1)
                     /\ g_pos g' = Some (Py.len (g_tokens g) - w - 1))
  | Raise e =>
      exists g', run_cell w g = (Failed (Raised e), g') /\ same_inputs g g'
  end.
Proof.
  cbv zeta.
  destruct (generate (g_vocabulary g) (g_tokens g) w) as [[cbow skipgram]|e]
    eqn:Hgen.
  - destruct (generate_Ok_inv _ _ _ _ Hgen) as [Hw Hn].
    revert Hgen. destruct g. unfold generate, run_cell, Np.zeros.
    cbn [g_vocabulary g_tokens]. run_step.
    destruct ((_ <? 0) || (_ <? 0)); run_step; [discriminate|].
    destruct ((_ <? 0) || (2 <? 0)); run_step; [discriminate|].
    unfold with_tqdm. run_step.
    match goal with
    | |- context [for_in window_statements ?items ?g] =>
        pose proof (window_loop_refine items g _ _ _ w
                      eq_refl eq_refl eq_refl eq_refl) as H;
        cbn [g_vocabulary g_tokens] in H;
        destruct (for_in window_statements items g) as [out g1]
    end.
    intros Hgen. rewrite Hgen in H.
    destruct H as (g' & [= -> ->] & (Ht & Hv) & Hw' & Hcb & Hsg & Hbar & Hd
                   & Hci & Hp).
    destruct g'. unfold same_inputs.
    cbn [g_tokens g_vocabulary g_window_size g_cbow g_skipgram g_pbar
         g_display g_center_idx g_pos bar_total bar_n bar_closed] in *.
    subst. run_step. eexists. split; [reflexivity|]. run_step.
    unfold Py.enumerate in *.
    rewrite length_enumerate_from, length_range in *.
    unfold Py.len in *. rewrite length_enumerate_from, length_range.
    repeat split.
    + cbn [bar_total bar_n Np.nrows]. do 2 f_equal. lia.
    + rewrite <- !app_assoc. cbn [app]. do 3 f_equal. f_equal. lia.
    + fold (@Py.enumerate Z (Py.range w (Z.of_nat (length g_tokens0) - w))).
      rewrite last_enumerate_range by lia. cbn [fst]. f_equal. lia.
    + fold (@Py.enumerate Z (Py.range w (Z.of_nat (length g_tokens0) - w))).
      rewrite last_enumerate_range by lia. cbn [snd]. f_equal.
  - revert Hgen. destruct g. unfold generate, run_cell, Np.zeros.
    cbn [g_vocabulary g_tokens]. run_step.
    destruct ((_ <? 0) || (_ <? 0)); run_step.
    { intros [= <-]. eexists. split; [reflexivity|frame]. }
    destruct ((_ <? 0) || (2 <? 0)); run_step.
    { intros [= <-]. eexists. split; [reflexivity|frame]. }
    unfold with_tqdm. run_step.
    match goal with
    | |- context [for_in window_statements ?items ?g] =>
        pose proof (window_loop_refine items g _ _ _ w
                      eq_refl eq_refl eq_refl eq_refl) as H;
        cbn [g_vocabulary g_tokens] in H;
        destruct (for_in window_statements items g) as [out g1]
    end.
    intros Hgen. rewrite Hgen in H.
    destruct H as (g' & [= -> ->] & Ht & Hv).
    destruct g'. cbn [g_tokens g_vocabulary] in *. subst.
    run_step. eexists. split; [reflexivity|].
    destruct g_pbar1; frame.
Qed.

(** * The claims *)

(** C1: for a token sequence of length [N >= 2w+1] and a positive radius [w],
    row [i] of the CBOW table, for every [i] in [0 .. N-2w-1], holds in its
    columns [0 .. w-1] the identifiers at positions [p-w .. p-1], in its
    columns [w .. 2w-1] those at positions [p+1 .. p+w], and in its last
    column [2w] the identifier at the center position [p = i+w]. The
    identifiers are those of the tokens under the notebook's vocabulary. *)
Theorem cbow_row_layout (token_counter_sorted : list (string * Z))
    (v : Vocab.t) (tokens : list string) (ids : list Z) (w : Z) :
  vocabulary token_counter_sorted = Ok v ->
  Vocab.lookup_indices v tokens = Ok ids ->
  0 < w -> 2 * w + 1 <= Py.len tokens ->
  exists cbow skipgram,
    generate v tokens w = Ok (cbow, skipgram) /\
    forall i, 0 <= i < Py.len tokens - 2 * w ->
      let p := i + w in
      exists row,
        Np.data cbow !! Z.to_nat i = Some row /\
        Py.len row = 2 * w + 1 /\
        (forall j, 0 <= j < w ->
           exists x, Py.getitem ids (p - w + j) = Ok x
                     /\ Py.getitem row j = Ok x) /\
        (forall j, 0 <= j < w ->
           exists x, Py.getitem ids (p + 1 + j) = Ok x
                     /\ Py.getitem row (w + j) = Ok x) /\
        (exists x, Py.getitem ids p = Ok x
                   /\ Py.getitem row (2 * w) = Ok x).
Proof.
  intros Hv Hids Hw Hn.
  destruct (notebook_generate _ _ _ _ w Hv Hids ltac:(lia) ltac:(lia))
    as [Hg Hlen].
  do 2 eexists. split; [exact Hg|].
  cbn [Np.data]. intros i Hi. cbv zeta. unfold Py.len in *.
  exists (cbow_row ids (Z.to_nat w) (Z.to_nat i)).
  split; [apply lookup_cbow_rows; lia|].
  split; [rewrite length_cbow_row; lia|].
  repeat split.
  - intros j Hj. apply getitem_same; [lia|unfold Py.len; lia|].
    rewrite lookup_cbow_row_context, lookup_window_left by lia.
    f_equal. lia.
  - intros j Hj. apply getitem_same; [lia|unfold Py.len; lia|].
    replace (Z.to_nat (w + j)) with (Z.to_nat w + Z.to_nat j)%nat by lia.
    rewrite lookup_cbow_row_context, lookup_window_right by lia.
    f_equal. lia.
  - apply getitem_same; [lia|unfold Py.len; lia|].
    replace (Z.to_nat (2 * w)) with (2 * Z.to_nat w)%nat by lia.
    rewrite lookup_cbow_row_center by lia.
    f_equal. lia.
Qed.

Lemma cbow_row_layout_witness :
  exists cbow skipgram,
    generate example_vocabulary example_tokens 2 = Ok (cbow, skipgram) /\
    forall i, 0 <= i < Py.len example_tokens - 2 * 2 ->
      let p := i + 2 in
      exists row,
        Np.data cbow !! Z.to_nat i = Some row /\
        Py.len row = 2 * 2 + 1 /\
        (forall j, 0 <= j < 2 ->
           exists x, Py.getitem [10; 11; 12; 13; 14; 15; 16] (p - 2 + j) = Ok x
                     /\ Py.getitem row j = Ok x) /\
        (forall j, 0 <= j < 2 ->
           exists x, Py.getitem [10; 11; 12; 13; 14; 15; 16] (p + 1 + j) = Ok x
                     /\ Py.getitem row (2 + j) = Ok x) /\
        (exists x, Py.getitem [10; 11; 12; 13; 14; 15; 16] p = Ok x
                   /\ Py.getitem row (2 * 2) = Ok x).
Proof.
  apply (cbow_row_layout example_counts example_vocabulary example_tokens
           [10; 11; 12; 13; 14; 15; 16] 2).
  - reflexivity.
  - reflexivity.
  - lia.
  - vm_compute. discriminate.
Defined.

(** C2: for a token sequence of length [N >= 2w+1] and a positive radius [w],
    the Skip-gram rows [i*2w .. i*2w+2w-1] of group [i], for every [i] in
    [0 .. N-2w-1], all carry in their first column the center of CBOW row
    [i] (its column [2w]), and in their second column, in row order, the
    columns [0 .. 2w-1] of CBOW row [i]. *)
Theorem skipgram_group_layout (token_counter_sorted : list (string * Z))
    (v : Vocab.t) (tokens : list string) (w : Z) :
  vocabulary token_counter_sorted = Ok v ->
  0 < w -> 2 * w + 1 <= Py.len tokens ->
  exists cbow skipgram,
    generate v tokens w = Ok (cbow, skipgram) /\
    forall i, 0 <= i < Py.len tokens - 2 * w ->
      exists row center,
        Np.data cbow !! Z.to_nat i = Some row /\
        Py.getitem row (2 * w) = Ok center /\
        forall j, 0 <= j < 2 * w ->
          exists c,
            Py.getitem row j = Ok c /\
            Py.getitem (Np.data skipgram) (i * (2 * w) + j) = Ok [center; c].
Proof.
  intros Hv Hw Hn.
  destruct (vocabulary_inv _ _ Hv) as [Hd _].
  pose proof (lookup_indices_resolve v 1 Hd tokens) as Hids.
  set (ids := map (resolve v 1) tokens) in Hids.
  destruct (notebook_generate _ _ _ _ w Hv Hids ltac:(lia) ltac:(lia))
    as [Hg Hlen].
  do 2 eexists. split; [exact Hg|].
  cbn [Np.data]. intros i Hi. unfold Py.len in *.
  set (wn := Z.to_nat w). set (k := Z.to_nat i).
  assert (Hk : (k + 2 * wn < length ids)%nat) by lia.
  destruct (lookup_lt_is_Some_2 ids (k + wn)) as [center Hc]; [lia|].
  exists (cbow_row ids wn k), center.
  split; [apply lookup_cbow_rows; exact Hk|].
  split.
  { replace (2 * w) with (Z.of_nat (2 * wn)) by lia.
    apply getitem_in_range. rewrite lookup_cbow_row_center by exact Hk.
    exact Hc. }
  intros j Hj.
  assert (Hjn : (Z.to_nat j < 2 * wn)%nat) by lia.
  destruct (lookup_lt_is_Some_2 (window_context ids wn k) (Z.to_nat j))
    as [c Hx]; [rewrite length_window_context; lia|].
  exists c. split.
  - rewrite <- (Z2Nat.id j) by lia. apply getitem_in_range.
    rewrite lookup_cbow_row_context by assumption. exact Hx.
  - replace (i * (2 * w) + j)
      with (Z.of_nat (k * (2 * wn) + Z.to_nat j)) by lia.
    apply getitem_in_range.
    rewrite lookup_skipgram_rows, Hx by assumption.
    cbn [option_map]. rewrite (nth_lookup_Some _ _ _ _ Hc). reflexivity.
Qed.

Lemma skipgram_group_layout_witness :
  exists cbow skipgram,
    generate example_vocabulary example_tokens 2 = Ok (cbow, skipgram) /\
    forall i, 0 <= i < Py.len example_tokens - 2 * 2 ->
      exists row center,
        Np.data cbow !! Z.to_nat i = Some row /\
        Py.getitem row (2 * 2) = Ok center /\
        forall j, 0 <= j < 2 * 2 ->
          exists c,
            Py.getitem row j = Ok c /\
            Py.getitem (Np.data skipgram) (i * (2 * 2) + j) = Ok [center; c].
Proof.
  apply (skipgram_group_layout example_counts example_vocabulary
           example_tokens 2).
  - reflexivity.
  - lia.
  - vm_compute. discriminate.
Defined.

(** C3: for a token sequence of length [N] and a positive radius [w] with
    [N >= 2w+1], the generator returns a CBOW table of exactly [N-2w] rows and
    [2w+1] columns and a Skip-gram table of exactly [(N-2w)*2w] rows and 2
    columns. *)
Theorem table_shapes (token_counter_sorted : list (string * Z))
    (v : Vocab.t) (tokens : list string) (w : Z) :
  vocabulary token_counter_sorted = Ok v ->
  0 < w -> 2 * w + 1 <= Py.len tokens ->
  exists cbow skipgram,
    generate v tokens w = Ok (cbow, skipgram) /\
    Np.nrows cbow = Py.len tokens - 2 * w /\
    Np.ncols cbow = 2 * w + 1 /\
    Py.len (Np.data cbow) = Py.len tokens - 2 * w /\
    Forall (fun row => Py.len row = 2 * w + 1) (Np.data cbow) /\
    Np.nrows skipgram = (Py.len tokens - 2 * w) * (2 * w) /\
    Np.ncols skipgram = 2 /\
    Py.len (Np.data skipgram) = (Py.len tokens - 2 * w) * (2 * w) /\
    Forall (fun row => Py.len row = 2) (Np.data skipgram).
Proof.
  intros Hv Hw Hn.
  destruct (vocabulary_inv _ _ Hv) as [Hd _].
  pose proof (lookup_indices_resolve v 1 Hd tokens) as Hids.
  set (ids := map (resolve v 1) tokens) in Hids.
  destruct (notebook_generate _ _ _ _ w Hv Hids ltac:(lia) ltac:(lia))
    as [Hg Hlen].
  do 2 eexists. split; [exact Hg|].
  cbn [Np.data Np.nrows Np.ncols]. unfold Py.len in *.
  repeat split.
  - rewrite length_cbow_rows. lia.
  - unfold cbow_rows. apply Forall_map, Forall_forall.
    intros k Hk. apply elem_of_seq in Hk.
    rewrite length_cbow_row; lia.
  - rewrite length_skipgram_rows. nia.
  - unfold skipgram_rows. apply Forall_concat, Forall_map, Forall_forall.
    intros k _. unfold skipgram_group. apply Forall_map, Forall_forall.
    intros c _. reflexivity.
Qed.

Lemma table_shapes_witness :
  exists cbow skipgram,
    generate example_vocabulary example_tokens 2 = Ok (cbow, skipgram) /\
    Np.nrows cbow = Py.len example_tokens - 2 * 2 /\
    Np.ncols cbow = 2 * 2 + 1 /\
    Py.len (Np.data cbow) = Py.len example_tokens - 2 * 2 /\
    Forall (fun row => Py.len row = 2 * 2 + 1) (Np.data cbow) /\
    Np.nrows skipgram = (Py.len example_tokens - 2 * 2) * (2 * 2) /\
    Np.ncols skipgram = 2 /\
    Py.len (Np.data skipgram) = (Py.len example_tokens - 2 * 2) * (2 * 2) /\
    Forall (fun row => Py.len row = 2) (Np.data skipgram).
Proof.
  apply (table_shapes example_counts example_vocabulary example_tokens 2).
  - reflexivity.
  - lia.
  - vm_compute. discriminate.
Defined.

(** C4: on a token sequence whose identifiers are [10,11,12,13,14,15,16],
    with [w = 2], the CBOW rows are [10,11,13,14,12], [11,12,14,15,13],
    [12,13,15,16,14] in that order, and the Skip-gram rows are
    (12,10),(12,11),(12,13),(12,14) for the first group, followed by the
    groups of the center positions 3 and 4. *)
Theorem scenario_seven_tokens (token_counter_sorted : list (string * Z))
    (v : Vocab.t) (tokens : list string) :
  vocabulary token_counter_sorted = Ok v ->
  Vocab.lookup_indices v tokens = Ok [10; 11; 12; 13; 14; 15; 16] ->
  generate v tokens 2
  = Ok (Np.mk_ndarray 3 5
          [[10; 11; 13; 14; 12]; [11; 12; 14; 15; 13]; [12; 13; 15; 16; 14]],
        Np.mk_ndarray 12 2
          [[12; 10]; [12; 11]; [12; 13]; [12; 14];
           [13; 11]; [13; 12]; [13; 14]; [13; 15];
           [14; 12]; [14; 13]; [14; 15]; [14; 16]]).
Proof.
  intros Hv Hids.
  assert (Hlen : Py.len tokens = 7).
  { destruct (notebook_ids _ _ _ _ Hv Hids) as [E _].
    apply (f_equal (@length Z)) in E. rewrite length_map in E.
    unfold Py.len. rewrite <- E. reflexivity. }
  destruct (notebook_generate _ _ _ _ 2 Hv Hids ltac:(lia) ltac:(lia))
    as [Hg _].
  rewrite Hg, Hlen. reflexivity.
Qed.

Lemma scenario_seven_tokens_witness :
  generate example_vocabulary example_tokens 2
  = Ok (Np.mk_ndarray 3 5
          [[10; 11; 13; 14; 12]; [11; 12; 14; 15; 13]; [12; 13; 15; 16; 14]],
        Np.mk_ndarray 12 2
          [[12; 10]; [12; 11]; [12; 13]; [12; 14];
           [13; 11]; [13; 12]; [13; 14]; [13; 15];
           [14; 12]; [14; 13]; [14; 15]; [14; 16]]).
Proof.
  apply (scenario_seven_tokens example_counts example_vocabulary
           example_tokens).
  - reflexivity.
  - reflexivity.
Defined.

(** C5, as the code has it: below [N = 2w+1] the generator returns two tables
    without rows only for [N = 2w]; for [N < 2w] the row count [N-2w] handed to
    [np.zeros] is negative and the allocation raises [ValueError]. *)
Theorem short_corpus (v : Vocab.t) (tokens : list string) (w : Z) :
  0 < w -> Py.len tokens < 2 * w + 1 ->
  (Py.len tokens = 2 * w
   /\ generate v tokens w
       = Ok (Np.mk_ndarray 0 (2 * w + 1) [], Np.mk_ndarray 0 2 []))
  \/ (Py.len tokens < 2 * w
      /\ generate v tokens w = Raise ValueError).
Proof.
  intros Hw Hn.
  destruct (Z.eq_dec (Py.len tokens) (2 * w)) as [E|E].
  - left. split; [exact E|].
    unfold generate, Np.zeros.
    rewrite E, Z.sub_diag. cbn [Z.mul].
    replace (2 * w + 1 <? 0) with false by (symmetry; apply Z.ltb_ge; lia).
    cbn [Z.ltb Z.compare orb bind Z.to_nat replicate].
    rewrite range_empty by lia. reflexivity.
  - right. split; [lia|]. apply generate_short. lia.
Qed.

Lemma short_corpus_witness :
  (Py.len short_tokens = 2 * 2
   /\ generate example_vocabulary short_tokens 2
       = Ok (Np.mk_ndarray 0 (2 * 2 + 1) [], Np.mk_ndarray 0 2 []))
  \/ (Py.len short_tokens < 2 * 2
      /\ generate example_vocabulary short_tokens 2 = Raise ValueError).
Proof.
  apply (short_corpus example_vocabulary short_tokens 2).
  - lia.
  - vm_compute. reflexivity.
Defined.

(** C5 as stated fails: three tokens and [w = 2] satisfy [N < 2w+1] with
    [w] positive, and the generator raises [ValueError] instead of returning
    two empty tables. *)
Lemma short_corpus_counterexample :
  0 < 2 /\ Py.len short_tokens < 2 * 2 + 1
  /\ vocabulary example_counts = Ok example_vocabulary
  /\ generate example_vocabulary short_tokens 2 = Raise ValueError
  /\ ~ (exists cbow skipgram,
          generate example_vocabulary short_tokens 2 = Ok (cbow, skipgram)).
Proof.
  split; [lia|]. split; [vm_compute; reflexivity|].
  split; [reflexivity|]. split; [reflexivity|].
  intros (cbow & skipgram & H). vm_compute in H. discriminate.
Qed.

(** C6, as the code has it: the window radius is never checked. For [w < 0]
    the column count [2w+1] handed to [np.zeros] is negative and the
    allocation raises [ValueError]; for [w = 0] the generator returns a CBOW
    table of [N] rows holding one identifier each and a Skip-gram table
    without rows. *)
Theorem nonpositive_window (token_counter_sorted : list (string * Z))
    (v : Vocab.t) (tokens : list string) (ids : list Z) (w : Z) :
  vocabulary token_counter_sorted = Ok v ->
  Vocab.lookup_indices v tokens = Ok ids ->
  w <= 0 ->
  (w < 0 /\ generate v tokens w = Raise ValueError)
  \/ (w = 0
      /\ generate v tokens w
          = Ok (Np.mk_ndarray (Py.len tokens) 1 (map (fun id => [id]) ids),
                Np.mk_ndarray 0 2 [])).
Proof.
  intros Hv Hids Hw.
  destruct (Z.eq_dec w 0) as [->|E].
  - right. split; [reflexivity|].
    destruct (notebook_generate _ _ _ _ 0 Hv Hids) as [Hg _];
      [lia|unfold Py.len; lia|].
    rewrite Hg. change (Z.to_nat 0) with O.
    rewrite cbow_rows_zero, skipgram_rows_zero.
    repeat f_equal; lia.
  - left. split; [lia|]. apply generate_negative_window. lia.
Qed.

Lemma nonpositive_window_witness :
  (-1 < 0 /\ generate example_vocabulary example_tokens (-1) = Raise ValueError)
  \/ (-1 = 0
      /\ generate example_vocabulary example_tokens (-1)
          = Ok (Np.mk_ndarray (Py.len example_tokens) 1
                  (map (fun id => [id]) [10; 11; 12; 13; 14; 15; 16]),
                Np.mk_ndarray 0 2 [])).
Proof.
  apply (nonpositive_window example_counts example_vocabulary example_tokens
           [10; 11; 12; 13; 14; 15; 16] (-1)).
  - reflexivity.
  - reflexivity.
  - lia.
Defined.

(** C6 as stated fails: with [w = 0] the generator does not fail, it returns
    two tables. *)
Lemma nonpositive_window_counterexample :
  0 <= 0
  /\ vocabulary example_counts = Ok example_vocabulary
  /\ generate example_vocabulary example_tokens 0
      = Ok (Np.mk_ndarray 7 1 [[10]; [11]; [12]; [13]; [14]; [15]; [16]],
            Np.mk_ndarray 0 2 []).
Proof.
  split; [lia|]. split; reflexivity.
Qed.







(** C9: both tables hold 32-bit signed integers: every stored element lies in
    [-2^31 .. 2^31-1], being the identifier reduced modulo [2^32]; and when
    the identifiers of the tokens fit in 32 bits, the tables hold exactly
    these identifiers. *)
Theorem stored_as_int32 (v : Vocab.t) (d : Z) (tokens : list string)
    (ids : list Z) (w : Z) :
  Vocab.default_index v = Some d ->
  Vocab.lookup_indices v tokens = Ok ids ->
  0 <= w -> 2 * w <= Py.len tokens ->
  exists cbow skipgram,
    generate v tokens w = Ok (cbow, skipgram)
    /\ Np.data cbow = cbow_rows (map Np.int32 ids) (Z.to_nat w)
    /\ Np.data skipgram = skipgram_rows (map Np.int32 ids) (Z.to_nat w)
    /\ Forall (Forall (fun e => - 2 ^ 31 <= e < 2 ^ 31)) (Np.data cbow)
    /\ Forall (Forall (fun e => - 2 ^ 31 <= e < 2 ^ 31)) (Np.data skipgram)
    /\ (forall id, Np.int32 id mod 2 ^ 32 = id mod 2 ^ 32)
    /\ (Forall (fun id => - 2 ^ 31 <= id < 2 ^ 31) ids ->
        Np.data cbow = cbow_rows ids (Z.to_nat w)
        /\ Np.data skipgram = skipgram_rows ids (Z.to_nat w)).
Proof.
  intros Hd Hids Hw Hn.
  rewrite (lookup_indices_resolve v d Hd) in Hids. injection Hids as <-.
  rewrite (generate_ok v d tokens w Hd Hw Hn).
  do 2 eexists. split; [reflexivity|]. cbn [Np.data].
  assert (H32 : Forall (fun e => - 2 ^ 31 <= e < 2 ^ 31)
                  (map Np.int32 (map (resolve v d) tokens))).
  { apply Forall_map, Forall_forall. intros id _. apply int32_range. }
  split; [reflexivity|]. split; [reflexivity|].
  split; [apply Forall_cbow_rows; [exact H32|lia]|].
  split; [apply Forall_skipgram_rows; [exact H32|lia]|].
  split.
  - intros id. unfold Np.int32.
    rewrite Zminus_mod, Zmod_mod, <- Zminus_mod.
    f_equal. lia.
  - intros Hfit. rewrite (map_int32_small _ Hfit). split; reflexivity.
Qed.

Lemma stored_as_int32_witness :
  exists cbow skipgram,
    generate wide_vocabulary unknown_tokens 1 = Ok (cbow, skipgram)
    /\ Np.data cbow = cbow_rows (map Np.int32 [0; 2 ^ 32 + 5; 2]) (Z.to_nat 1)
    /\ Np.data skipgram
       = skipgram_rows (map Np.int32 [0; 2 ^ 32 + 5; 2]) (Z.to_nat 1)
    /\ Forall (Forall (fun e => - 2 ^ 31 <= e < 2 ^ 31)) (Np.data cbow)
    /\ Forall (Forall (fun e => - 2 ^ 31 <= e < 2 ^ 31)) (Np.data skipgram)
    /\ (forall id, Np.int32 id mod 2 ^ 32 = id mod 2 ^ 32)
    /\ (Forall (fun id => - 2 ^ 31 <= id < 2 ^ 31) [0; 2 ^ 32 + 5; 2] ->
        Np.data cbow = cbow_rows [0; 2 ^ 32 + 5; 2] (Z.to_nat 1)
        /\ Np.data skipgram = skipgram_rows [0; 2 ^ 32 + 5; 2] (Z.to_nat 1)).
Proof.
  apply (stored_as_int32 wide_vocabulary (2 ^ 32 + 5) unknown_tokens
           [0; 2 ^ 32 + 5; 2] 1).
  - reflexivity.
  - reflexivity.
  - lia.
  - vm_compute. discriminate.
Defined.

(** C10: under the notebook's vocabulary every entry of both tables is a
    vocabulary index between 0 and [len(vocabulary) - 1], for every token
    stream: a token outside the vocabulary is stored as the index of [<UNK>],
    the default index. *)
Theorem entries_are_vocabulary_indices
    (token_counter_sorted : list (string * Z)) (v : Vocab.t)
    (tokens : list string) (w : Z) :
  vocabulary token_counter_sorted = Ok v ->
  (0 <= w -> 2 * w <= Py.len tokens ->
   exists cbow skipgram, generate v tokens w = Ok (cbow, skipgram))
  /\ (forall cbow skipgram,
        generate v tokens w = Ok (cbow, skipgram) ->
        Forall (Forall (fun e => 0 <= e < Vocab.len v)) (Np.data cbow)
        /\ Forall (Forall (fun e => 0 <= e < Vocab.len v)) (Np.data skipgram))
  /\ (forall tok, Vocab.index_of tok (Vocab.itos v) = None ->
        Vocab.getitem v tok = Vocab.getitem v UNK_TOKEN).
Proof.
  intros Hv.
  destruct (vocabulary_inv _ _ Hv) as [Hd Hlen].
  pose proof (lookup_indices_resolve v 1 Hd tokens) as Hids.
  destruct (notebook_ids _ _ _ _ Hv Hids) as (_ & Hrange & _).
  split; [|split].
  - intros Hw Hn.
    destruct (notebook_generate _ _ _ _ w Hv Hids Hw Hn) as [Hg _].
    do 2 eexists. exact Hg.
  - intros cbow skipgram Hg.
    destruct (generate_Ok_inv _ _ _ _ Hg) as [Hw Hn].
    destruct (notebook_generate _ _ _ _ w Hv Hids Hw Hn) as [Hg' _].
    rewrite Hg' in Hg. injection Hg as <- <-. cbn [Np.data].
    split; [apply Forall_cbow_rows|apply Forall_skipgram_rows];
      first [exact Hrange|lia].
  - intros tok Htok.
    rewrite (vocabulary_unk _ _ Hv). exact (getitem_absent v 1 tok Hd Htok).
Qed.

Lemma entries_are_vocabulary_indices_witness :
  (0 <= 1 -> 2 * 1 <= Py.len unknown_tokens ->
   exists cbow skipgram,
     generate example_vocabulary unknown_tokens 1 = Ok (cbow, skipgram))
  /\ (forall cbow skipgram,
        generate example_vocabulary unknown_tokens 1 = Ok (cbow, skipgram) ->
        Forall (Forall (fun e => 0 <= e < Vocab.len example_vocabulary))
          (Np.data cbow)
        /\ Forall (Forall (fun e => 0 <= e < Vocab.len example_vocabulary))
             (Np.data skipgram))
  /\ (forall tok,
        Vocab.index_of tok (Vocab.itos example_vocabulary) = None ->
        Vocab.getitem example_vocabulary tok
        = Vocab.getitem example_vocabulary UNK_TOKEN).
Proof.
  apply (entries_are_vocabulary_indices example_counts example_vocabulary
           unknown_tokens 1).
  reflexivity.
Defined.


(** * The cells before the generator *)

(** ** Dictionaries *)

Lemma dict_get_dict_set (d : list (string * Z)) (k k' : string) (x : Z) :
  dict_get (Vocab.dict_set d k x) k'
  = if String.eqb k' k then Some x else dict_get d k'.
Proof.
  induction d as [|[k0 x0] d IH]; cbn [Vocab.dict_set dict_get].
  - destruct (String.eqb k' k); reflexivity.
  - destruct (String.eqb_spec k k0) as [->|Hne]; cbn [dict_get].
    + destruct (String.eqb k' k0); reflexivity.
    + rewrite IH. destruct (String.eqb_spec k' k0) as [->|Hne'];
        [|reflexivity].
      destruct (String.eqb_spec k0 k) as [->|_]; [congruence|reflexivity].
Qed.

Lemma keys_dict_set_old (d : list (string * Z)) (k : string) (x : Z) :
  k ∈ map fst d -> map fst (Vocab.dict_set d k x) = map fst d.
Proof.
  induction d as [|[k0 x0] d IH]; cbn [Vocab.dict_set map fst]; intros H.
  - inversion H.
  - destruct (String.eqb_spec k k0) as [->|Hne]; cbn [map fst];
      [reflexivity|].
    apply elem_of_cons in H as [H|H]; [congruence|].
    rewrite IH by exact H. reflexivity.
Qed.

Lemma dict_set_new (d : list (string * Z)) (k : string) (x : Z) :
  k ∉ map fst d -> Vocab.dict_set d k x = d ++ [(k, x)].
Proof.
  induction d as [|[k0 x0] d IH]; cbn [Vocab.dict_set map fst app]; intros H;
    [reflexivity|].
  apply not_elem_of_cons in H as [Hne H].
  destruct (String.eqb_spec k k0) as [->|_]; [congruence|].
  rewrite IH by exact H. reflexivity.
Qed.

Lemma elem_of_keys_dec (d : list (string * Z)) (k : string) :
  k ∈ map fst d \/ k ∉ map fst d.
Proof.
  destruct (in_dec string_dec k (map fst d)) as [H|H].
  - left. apply list_elem_of_In, H.
  - right. intros H'. apply H, list_elem_of_In, H'.
Qed.

Lemma NoDup_dict_set (d : list (string * Z)) (k : string) (x : Z) :
  NoDup (map fst d) -> NoDup (map fst (Vocab.dict_set d k x)).
Proof.
  intros H. destruct (elem_of_keys_dec d k) as [Hin|Hnin].
  - rewrite keys_dict_set_old by exact Hin. exact H.
  - rewrite dict_set_new, map_app by exact Hnin. cbn [map fst].
    apply NoDup_app. split; [exact H|]. split; [|apply NoDup_singleton].
    intros y Hy Hy'. apply list_elem_of_singleton in Hy'. congruence.
Qed.

Lemma dict_get_Some_elem (d : list (string * Z)) (k : string) (x : Z) :
  dict_get d k = Some x -> (k, x) ∈ d.
Proof.
  induction d as [|[k0 x0] d IH]; cbn [dict_get]; [discriminate|].
  destruct (String.eqb_spec k k0) as [->|Hne].
  - intros [= ->]. left.
  - intros H. right. apply IH, H.
Qed.

Lemma dict_get_elem (d : list (string * Z)) (k : string) (x : Z) :
  NoDup (map fst d) -> (k, x) ∈ d -> dict_get d k = Some x.
Proof.
  induction d as [|[k0 x0] d IH]; cbn [dict_get map fst]; intros Hnd Hin.
  - inversion Hin.
  - apply NoDup_cons in Hnd as [Hk0 Hnd].
    apply elem_of_cons in Hin as [[= -> ->]|Hin].
    + rewrite String.eqb_refl. reflexivity.
    + destruct (String.eqb_spec k k0) as [->|Hne]; [|apply IH; assumption].
      exfalso. apply Hk0. apply list_elem_of_fmap. exists (k0, x).
      split; [reflexivity|exact Hin].
Qed.

(** ** [process_reviews] *)

Lemma counts_agree_incr (tokens : list string) (d : list (string * Z))
    (t : string) :
  counts_agree tokens d -> counts_agree (tokens ++ [t]) (counter_incr d t).
Proof.
  intros [Hnd Hget]. split; [apply NoDup_dict_set, Hnd|].
  intros tok. unfold counter_incr, counter_get.
  rewrite dict_get_dict_set, count_occ_app. cbn [count_occ].
  destruct (String.eqb_spec tok t) as [->|Hne].
  - rewrite Hget. destruct (string_dec t t) as [_|]; [|congruence].
    destruct (count_occ string_dec tokens t) as [|n];
      cbn [Nat.add]; [reflexivity|].
    rewrite Nat.add_1_r. f_equal. lia.
  - destruct (string_dec t tok) as [->|_]; [congruence|].
    rewrite Nat.add_0_r. apply Hget.
Qed.

Lemma counts_agree_fold (ts tokens : list string) (d : list (string * Z)) :
  counts_agree tokens d ->
  counts_agree (tokens ++ ts) (fold_left counter_incr ts d).
Proof.
  revert tokens d. induction ts as [|t ts IH]; intros tokens d H;
    cbn [fold_left].
  - rewrite app_nil_r. exact H.
  - rewrite (cons_middle t tokens ts), app_assoc.
    apply IH, counts_agree_incr, H.
Qed.

Lemma counts_agree_scan_entries (limit : Z) (entries : list entry)
    (st : reviews) :
  counts_agree (r_tokens st) (r_token_counter st) ->
  match scan_entries limit entries st with
  | Continue st' | Return st' =>
      counts_agree (r_tokens st') (r_token_counter st')
  end.
Proof.
  revert st. induction entries as [|[|ts] entries IH]; intros st H;
    cbn [scan_entries].
  - exact H.
  - apply IH, H.
  - cbv zeta.
    destruct (limit <=? r_review_count st + 1).
    + cbn [r_tokens r_token_counter]. apply counts_agree_fold, H.
    + apply IH. cbn [r_tokens r_token_counter]. apply counts_agree_fold, H.
Qed.

Lemma counts_agree_scan_folders (limit : Z) (folders : list (list entry))
    (st : reviews) :
  counts_agree (r_tokens st) (r_token_counter st) ->
  counts_agree (r_tokens (scan_folders limit folders st))
    (r_token_counter (scan_folders limit folders st)).
Proof.
  revert st. induction folders as [|folder folders IH]; intros st H;
    cbn [scan_folders]; [exact H|].
  pose proof (counts_agree_scan_entries limit folder st H) as Hf.
  destruct (scan_entries limit folder st) as [st'|st']; [apply IH|]; exact Hf.
Qed.

Lemma process_reviews_agree (limit : Z) (folders : list (list entry)) :
  counts_agree (fst (process_reviews limit folders))
    (snd (process_reviews limit folders)).
Proof.
  unfold process_reviews. cbn [fst snd].
  apply counts_agree_scan_folders. split; [constructor|reflexivity].
Qed.

(** X1: [process_reviews] returns a counter that agrees with the token list
    it returns: the counter has one item per distinct token, every token is
    counted as often as it occurs in the list, a token that does not occur
    counts 0, and every item of the counter is a token of the list with a
    count of at least 1. *)
Theorem process_reviews_counts (considered_num_reviews : Z)
    (folders : list (list entry)) :
  let '(tokens, token_counter) :=
    process_reviews considered_num_reviews folders in
  NoDup (map fst token_counter)
  /\ (forall tok,
        counter_get token_counter tok
        = Z.of_nat (count_occ string_dec tokens tok))
  /\ (forall tok c,
        (tok, c) ∈ token_counter ->
        tok ∈ tokens /\ 1 <= c
        /\ c = Z.of_nat (count_occ string_dec tokens tok)).
Proof.
  pose proof (process_reviews_agree considered_num_reviews folders) as H.
  destruct (process_reviews considered_num_reviews folders)
    as [tokens token_counter].
  cbn [fst snd] in H. destruct H as [Hnd Hget].
  split; [exact Hnd|]. split.
  - intros tok. unfold counter_get. rewrite Hget.
    destruct (count_occ string_dec tokens tok); reflexivity.
  - intros tok c Hin.
    pose proof (dict_get_elem _ _ _ Hnd Hin) as Hc. rewrite Hget in Hc.
    destruct (count_occ string_dec tokens tok) as [|n] eqn:E;
      [discriminate|].
    injection Hc as <-. split; [|lia].
    apply list_elem_of_In, (count_occ_In string_dec). lia.
Qed.

Lemma scan_entries_tokens (limit : Z) (entries : list entry) (st : reviews) :
  let a := Z.to_nat (Z.max 1 (limit - r_review_count st)) in
  let fs := folder_files entries in
  match scan_entries limit entries st with
  | Return st' =>
      (a <= length fs)%nat
      /\ r_tokens st' = r_tokens st ++ concat (take a fs)
      /\ r_review_count st' = r_review_count st + Z.of_nat a
  | Continue st' =>
      (length fs < a)%nat
      /\ r_tokens st' = r_tokens st ++ concat fs
      /\ r_review_count st' = r_review_count st + Z.of_nat (length fs)
  end.
Proof.
  revert st. induction entries as [|[|ts] entries IH]; intros st;
    cbn [scan_entries folder_files]; cbv zeta.
  - cbn [length concat]. rewrite app_nil_r. repeat split; lia.
  - apply IH.
  - destruct (Z.leb_spec limit (r_review_count st + 1)) as [Hle|Hgt].
    + cbn [r_tokens r_review_count length].
      replace (Z.to_nat (Z.max 1 (limit - r_review_count st))) with 1%nat
        by lia.
      cbn [take concat]. rewrite app_nil_r. repeat split; lia.
    + specialize (IH (mk_reviews (r_tokens st ++ ts)
                        (fold_left counter_incr ts (r_token_counter st))
                        (r_review_count st + 1))).
      cbv zeta in IH. cbn [r_tokens r_review_count] in IH.
      replace (Z.to_nat (Z.max 1 (limit - r_review_count st)))
        with (S (Z.to_nat (Z.max 1 (limit - (r_review_count st + 1)))))
        by lia.
      destruct (scan_entries limit entries _) as [st'|st'];
        destruct IH as (Hlen & Htok & Hcount);
        cbn [length take concat]; rewrite Htok, Hcount, <- app_assoc;
        repeat split; lia.
Qed.

Lemma scan_folders_tokens (limit : Z) (folders : list (list entry))
    (st : reviews) :
  let a := Z.to_nat (Z.max 1 (limit - r_review_count st)) in
  r_tokens (scan_folders limit folders st)
  = r_tokens st ++ concat (take a (regular_files folders)).
Proof.
  revert st. induction folders as [|folder folders IH]; intros st;
    cbv zeta; cbn [scan_folders].
  - unfold regular_files. cbn [map concat]. rewrite take_nil.
    cbn [concat]. rewrite app_nil_r. reflexivity.
  - unfold regular_files. cbn [map concat]. fold (regular_files folders).
    pose proof (scan_entries_tokens limit folder st) as H. cbv zeta in H.
    destruct (scan_entries limit folder st) as [st'|st'];
      destruct H as (Hlen & Htok & Hcount).
    + rewrite IH. cbv zeta. rewrite Htok, Hcount.
      rewrite take_app_ge by lia. rewrite concat_app, <- app_assoc.
      do 3 f_equal. f_equal. lia.
    + rewrite Htok, take_app_le by lia. reflexivity.
Qed.

(** X2: the tokens [process_reviews] returns are the tokens of the first
    [max(1, considered_num_reviews)] regular files, folder after folder, one
    file after the other; directories are passed over. The limit is tested
    only after a file has been processed, so that a limit of 0 or less still
    takes the first file. *)
Theorem process_reviews_tokens (considered_num_reviews : Z)
    (folders : list (list entry)) :
  fst (process_reviews considered_num_reviews folders)
  = concat (take (Z.to_nat (Z.max 1 considered_num_reviews))
              (regular_files folders)).
Proof.
  unfold process_reviews. cbn [fst].
  rewrite scan_folders_tokens. cbn [r_tokens r_review_count app].
  rewrite Z.sub_0_r. reflexivity.
Qed.

(** ** [sorted] by decreasing count *)

Lemma insert_by_count_perm (x : string * Z) (l : list (string * Z)) :
  insert_by_count x l ≡ₚ x :: l.
Proof.
  induction l as [|y l IH]; cbn [insert_by_count]; [reflexivity|].
  destruct (snd x <? snd y); [|reflexivity].
  rewrite IH. apply perm_swap.
Qed.

Lemma insert_by_count_sorted (x : string * Z) (l : list (string * Z)) :
  StronglySorted (fun a b => snd b <= snd a) l ->
  StronglySorted (fun a b => snd b <= snd a) (insert_by_count x l).
Proof.
  induction 1 as [|y l Hl IH Hy]; cbn [insert_by_count].
  - repeat constructor.
  - destruct (Z.ltb_spec (snd x) (snd y)) as [Hlt|Hge].
    + constructor; [exact IH|].
      rewrite insert_by_count_perm. constructor; [lia|exact Hy].
    + constructor; [constructor; assumption|].
      constructor; [exact Hge|].
      eapply Forall_impl; [exact Hy|]. cbv beta. intros z Hz. lia.
Qed.

Lemma insert_by_count_filter (c : Z) (x : string * Z)
    (l : list (string * Z)) :
  List.filter (fun kx => snd kx =? c) (insert_by_count x l)
  = List.filter (fun kx => snd kx =? c) (x :: l).
Proof.
  induction l as [|y l IH]; cbn [insert_by_count]; [reflexivity|].
  destruct (Z.ltb_spec (snd x) (snd y)) as [Hlt|Hge]; [|reflexivity].
  cbn [List.filter] in *. rewrite IH.
  destruct (Z.eqb_spec (snd x) c) as [Hx|Hx]; [|reflexivity].
  destruct (Z.eqb_spec (snd y) c) as [Hy|Hy]; [lia|reflexivity].
Qed.

Lemma sorted_by_count_perm (items : list (string * Z)) :
  sorted_by_count items ≡ₚ items.
Proof.
  unfold sorted_by_count. induction items as [|x items IH]; cbn [fold_right].
  - constructor.
  - rewrite insert_by_count_perm, IH. reflexivity.
Qed.

Lemma sorted_by_count_sorted (items : list (string * Z)) :
  StronglySorted (fun a b => snd b <= snd a) (sorted_by_count items).
Proof.
  unfold sorted_by_count. induction items as [|x items IH]; cbn [fold_right].
  - constructor.
  - apply insert_by_count_sorted, IH.
Qed.

(** X3: the sorted items are the items of the counter, each once, in the
    order of decreasing count; the items of one count keep the order they
    have in the counter. *)
Theorem sorted_by_count_spec (items : list (string * Z)) :
  sorted_by_count items ≡ₚ items
  /\ StronglySorted (fun a b => snd b <= snd a) (sorted_by_count items)
  /\ forall c,
       List.filter (fun kx => snd kx =? c) (sorted_by_count items)
       = List.filter (fun kx => snd kx =? c) items.
Proof.
  split; [apply sorted_by_count_perm|].
  split; [apply sorted_by_count_sorted|].
  intros c. unfold sorted_by_count.
  induction items as [|x items IH]; cbn [fold_right]; [reflexivity|].
  rewrite insert_by_count_filter. cbn [List.filter].
  rewrite IH. reflexivity.
Qed.

(** ** The vocabulary *)

Lemma vocabulary_eq (token_counter_sorted : list (string * Z)) :
  vocabulary token_counter_sorted
  = Ok (Vocab.mk (SPECIALS ++ vocabulary_tokens token_counter_sorted)
          (Some 1)).
Proof. reflexivity. Qed.

Lemma keys_filter_elem (f : string * Z -> bool) (d : list (string * Z))
    (k : string) :
  k ∈ map fst (List.filter f d) -> k ∈ map fst d.
Proof.
  induction d as [|kx d IH]; cbn [List.filter map]; [trivial|].
  destruct (f kx); cbn [map]; intros H.
  - apply elem_of_cons. apply elem_of_cons in H as [H|H]; auto.
  - right. apply IH, H.
Qed.

Lemma NoDup_keys_filter (f : string * Z -> bool) (d : list (string * Z)) :
  NoDup (map fst d) -> NoDup (map fst (List.filter f d)).
Proof.
  induction d as [|kx d IH]; cbn [List.filter map]; [trivial|].
  intros H. apply NoDup_cons in H as [Hk H].
  destruct (f kx); cbn [map]; [|apply IH, H].
  apply NoDup_cons. split; [|apply IH, H].
  intros Hin. apply Hk. eapply keys_filter_elem, Hin.
Qed.

Lemma filter_all (f : string * Z -> bool) (d : list (string * Z)) :
  Forall (fun kx => f kx = true) d -> List.filter f d = d.
Proof.
  induction 1 as [|kx d Hkx _ IH]; cbn [List.filter]; [reflexivity|].
  rewrite Hkx, IH. reflexivity.
Qed.

Lemma elem_of_keys_dict_set (d : list (string * Z)) (k k' : string) (x : Z) :
  k' ∈ map fst (Vocab.dict_set d k x) <-> k' ∈ map fst d \/ k' = k.
Proof.
  destruct (elem_of_keys_dec d k) as [Hin|Hnin].
  - rewrite keys_dict_set_old by exact Hin. split; [auto|].
    intros [H| ->]; assumption.
  - rewrite dict_set_new, map_app by exact Hnin. cbn [map fst].
    rewrite elem_of_app, list_elem_of_singleton. reflexivity.
Qed.

Lemma OrderedDict_fold (items acc : list (string * Z)) :
  NoDup (map fst acc) ->
  let d := fold_left (fun d kx => Vocab.dict_set d (fst kx) (snd kx))
             items acc in
  NoDup (map fst d)
  /\ (forall k, k ∈ map fst d -> k ∈ map fst acc \/ k ∈ map fst items)
  /\ (NoDup (map fst (acc ++ items)) -> d = acc ++ items).
Proof.
  revert acc. induction items as [|[k x] items IH]; intros acc Hacc;
    cbv zeta; cbn [fold_left fst snd].
  - rewrite app_nil_r. auto.
  - destruct (IH (Vocab.dict_set acc k x) (NoDup_dict_set _ _ _ Hacc))
      as (Hnd & Hsub & Hid).
    cbv zeta in *. split; [exact Hnd|]. split.
    + intros k' Hk'. apply Hsub in Hk' as [Hk'|Hk'].
      * apply elem_of_keys_dict_set in Hk' as [Hk'| ->];
          [left; exact Hk'|right; left].
      * right. right. exact Hk'.
    + intros Hall. rewrite map_app in Hall. cbn [map fst] in Hall.
      apply NoDup_app in Hall as (_ & Hdisj & Hitems).
      assert (Hk : k ∉ map fst acc).
      { intros Hin. apply (Hdisj k Hin). left. }
      rewrite dict_set_new in Hid |- * by exact Hk.
      rewrite Hid, <- app_assoc; [reflexivity|].
      rewrite <- app_assoc, map_app. cbn [app map fst].
      apply NoDup_app. split; [exact Hacc|]. split; [exact Hdisj|exact Hitems].
Qed.

Lemma dict_pops_spec (specials : list string) (d : list (string * Z)) :
  let d' := fold_left Vocab.dict_pop specials d in
  (NoDup (map fst d) -> NoDup (map fst d'))
  /\ (forall k, k ∈ map fst d' -> k ∈ map fst d /\ k ∉ specials)
  /\ (Forall (fun kx => fst kx ∉ specials) d -> d' = d).
Proof.
  revert d. induction specials as [|s specials IH]; intros d; cbv zeta;
    cbn [fold_left].
  - split; [trivial|]. split; [|trivial].
    intros k Hk. split; [exact Hk|]. intros H. inversion H.
  - destruct (IH (Vocab.dict_pop d s)) as (Hnd & Hsub & Hid). cbv zeta in *.
    split; [|split].
    + intros H. apply Hnd. unfold Vocab.dict_pop.
      apply NoDup_keys_filter, H.
    + intros k Hk. apply Hsub in Hk as [Hk Hks].
      assert (Hne : k <> s).
      { intros ->. unfold Vocab.dict_pop in Hk.
        apply list_elem_of_fmap in Hk as ([k' x'] & -> & Hin).
        apply list_elem_of_In, filter_In in Hin as [_ Hf].
        cbn [fst] in Hf. rewrite String.eqb_refl in Hf. discriminate. }
      split; [eapply keys_filter_elem, Hk|].
      intros H. apply elem_of_cons in H as [H|H]; [congruence|auto].
    + intros Hall.
      assert (E : Vocab.dict_pop d s = d).
      { apply filter_all. eapply Forall_impl; [exact Hall|].
        cbv beta. intros kx Hkx.
        destruct (String.eqb_spec s (fst kx)) as [->|_]; [|reflexivity].
        exfalso. apply Hkx. left. }
      rewrite E in Hid |- *. apply Hid. eapply Forall_impl; [exact Hall|].
      cbv beta. intros kx Hkx H. apply Hkx. right. exact H.
Qed.

Lemma slice_prefix {A : Type} (l : list A) (n : Z) :
  0 <= n -> Py.slice l 0 n = take (Z.to_nat n) l.
Proof.
  intros Hn. unfold Py.slice, Py.clamp.
  replace (0 <? 0) with false by reflexivity.
  replace (n <? 0) with false by (symmetry; apply Z.ltb_ge; lia).
  cbv zeta. unfold Py.len.
  replace (Z.to_nat (Z.min 0 (Z.of_nat (length l)))) with O by lia.
  rewrite drop_0.
  destruct (Z.le_gt_cases n (Z.of_nat (length l))) as [H|H].
  - f_equal. lia.
  - rewrite !take_ge by lia. reflexivity.
Qed.

(** The corpus part of the vocabulary: no token twice, none a special, all
    among the first [TOP_TOKENS] sorted items. *)
Lemma vocabulary_tokens_spec (token_counter_sorted : list (string * Z)) :
  NoDup (vocabulary_tokens token_counter_sorted)
  /\ forall k,
       k ∈ vocabulary_tokens token_counter_sorted ->
       (k ∉ SPECIALS)
       /\ k ∈ map fst (Py.slice token_counter_sorted 0 TOP_TOKENS).
Proof.
  unfold vocabulary_tokens, token_ordered_dict, Vocab.OrderedDict.
  set (items := Py.slice token_counter_sorted 0 TOP_TOKENS).
  destruct (OrderedDict_fold items [] (NoDup_nil_2)) as (Hnd & Hsub & _).
  cbv zeta in *.
  set (d := fold_left _ items []) in *.
  destruct (dict_pops_spec SPECIALS d) as (Hnd' & Hsub' & _). cbv zeta in *.
  split; [apply NoDup_keys_filter, Hnd', Hnd|].
  intros k Hk. apply keys_filter_elem, Hsub' in Hk as [Hk Hks].
  split; [exact Hks|].
  apply Hsub in Hk as [Hk|Hk]; [inversion Hk|exact Hk].
Qed.

Lemma index_of_lookup (tok : string) (l : list string) (i : nat) :
  Vocab.index_of tok l = Some i -> l !! i = Some tok.
Proof.
  revert i. induction l as [|s l IH]; intros i; cbn [Vocab.index_of];
    [discriminate|].
  destruct (String.eqb_spec tok s) as [->|Hne].
  - intros [= <-]. reflexivity.
  - destruct (Vocab.index_of tok l) as [j|]; [|discriminate].
    intros [= <-]. apply IH. reflexivity.
Qed.

Lemma index_of_None (tok : string) (l : list string) :
  Vocab.index_of tok l = None <-> tok ∉ l.
Proof.
  induction l as [|s l IH]; cbn [Vocab.index_of].
  - split; [intros _ H; inversion H|reflexivity].
  - rewrite not_elem_of_cons.
    destruct (String.eqb_spec tok s) as [->|Hne].
    + split; [discriminate|intros [H _]; congruence].
    + destruct (Vocab.index_of tok l) as [j|]; cbn [option_map].
      * split; [discriminate|]. intros [_ H]. apply IH in H. discriminate.
      * split; [|reflexivity]. intros _. split; [exact Hne|].
        apply IH. reflexivity.
Qed.

Lemma index_of_NoDup (tok : string) (l : list string) (i : nat) :
  NoDup l -> l !! i = Some tok -> Vocab.index_of tok l = Some i.
Proof.
  intros Hnd Hl.
  destruct (Vocab.index_of tok l) as [j|] eqn:E.
  - apply index_of_lookup in E. f_equal. eapply NoDup_lookup; eassumption.
  - apply index_of_None in E. exfalso. apply E.
    eapply list_elem_of_lookup_2, Hl.
Qed.

Lemma NoDup_SPECIALS : NoDup SPECIALS.
Proof.
  unfold SPECIALS.
  repeat (apply NoDup_cons; split;
          [intros H;
           repeat (apply elem_of_cons in H as [H|H]; [discriminate|]);
           inversion H|]).
  apply NoDup_nil_2.
Qed.

Lemma NoDup_vocabulary (token_counter_sorted : list (string * Z)) :
  NoDup (SPECIALS ++ vocabulary_tokens token_counter_sorted).
Proof.
  destruct (vocabulary_tokens_spec token_counter_sorted) as [Hnd Hsub].
  apply NoDup_app. split; [apply NoDup_SPECIALS|]. split; [|exact Hnd].
  intros k Hk Hk'. apply Hsub in Hk' as [Hk' _]. auto.
Qed.

Lemma getitem_lookup (l : list string) (d : option Z) (i : nat)
    (tok : string) :
  NoDup l -> l !! i = Some tok ->
  Vocab.getitem (Vocab.mk l d) tok = Ok (Z.of_nat i).
Proof.
  intros Hnd Hl. unfold Vocab.getitem. cbn [Vocab.itos].
  rewrite (index_of_NoDup _ _ _ Hnd Hl). reflexivity.
Qed.

(** X4: whatever the corpus, the four specials hold the indices 0, 1, 2 and
    3, also when their text occurs as a token of the corpus; every other
    token either is absent from the vocabulary and resolves to 1, the index
    of [<UNK>], or has an index of its own from 4 on. *)
Theorem special_indices (token_counter_sorted : list (string * Z))
    (v : Vocab.t) :
  vocabulary token_counter_sorted = Ok v ->
  Vocab.getitem v PAD_TOKEN = Ok 0
  /\ Vocab.getitem v UNK_TOKEN = Ok 1
  /\ Vocab.getitem v SOS_TOKEN = Ok 2
  /\ Vocab.getitem v EOS_TOKEN = Ok 3
  /\ forall tok,
       tok ∉ SPECIALS ->
       ((tok ∉ Vocab.itos v) /\ Vocab.getitem v tok = Ok 1)
       \/ (exists i,
             (4 <= i)%nat /\ Vocab.itos v !! i = Some tok
             /\ Vocab.getitem v tok = Ok (Z.of_nat i)).
Proof.
  rewrite vocabulary_eq. intros [= <-].
  do 4 (split; [reflexivity|]).
  intros tok Htok. unfold Vocab.getitem. cbn [Vocab.itos Vocab.default_index].
  destruct (Vocab.index_of tok _) as [i|] eqn:E.
  - right. exists i. apply index_of_lookup in E.
    split; [|split; [exact E|reflexivity]].
    destruct (Nat.le_gt_cases 4 i) as [H|H]; [exact H|].
    exfalso. apply Htok.
    apply (list_elem_of_lookup_2 _ i).
    rewrite <- E. symmetry.
    apply (lookup_app_l SPECIALS (vocabulary_tokens token_counter_sorted)).
    exact H.
  - left. split; [|reflexivity]. apply index_of_None, E.
Qed.

Lemma special_indices_witness :
  Vocab.getitem example_vocabulary PAD_TOKEN = Ok 0
  /\ Vocab.getitem example_vocabulary UNK_TOKEN = Ok 1
  /\ Vocab.getitem example_vocabulary SOS_TOKEN = Ok 2
  /\ Vocab.getitem example_vocabulary EOS_TOKEN = Ok 3
  /\ forall tok,
       tok ∉ SPECIALS ->
       ((tok ∉ Vocab.itos example_vocabulary)
        /\ Vocab.getitem example_vocabulary tok = Ok 1)
       \/ (exists i,
             (4 <= i)%nat /\ Vocab.itos example_vocabulary !! i = Some tok
             /\ Vocab.getitem example_vocabulary tok = Ok (Z.of_nat i)).
Proof.
  apply (special_indices example_counts example_vocabulary). reflexivity.
Defined.

(** X5: the vocabulary holds no token twice, so that looking up the token
    found at an index gives this index back, and two tokens of the vocabulary
    with the same index are the same token. *)
Theorem vocabulary_round_trip (token_counter_sorted : list (string * Z))
    (v : Vocab.t) :
  vocabulary token_counter_sorted = Ok v ->
  NoDup (Vocab.itos v)
  /\ (forall i tok,
        Vocab.itos v !! i = Some tok ->
        Vocab.getitem v tok = Ok (Z.of_nat i))
  /\ (forall a b,
        a ∈ Vocab.itos v -> b ∈ Vocab.itos v ->
        Vocab.getitem v a = Vocab.getitem v b -> a = b).
Proof.
  rewrite vocabulary_eq. intros [= <-]. cbn [Vocab.itos].
  pose proof (NoDup_vocabulary token_counter_sorted) as Hnd.
  split; [exact Hnd|]. split.
  - intros i tok Hi. apply getitem_lookup; assumption.
  - intros a b Ha Hb.
    apply list_elem_of_lookup in Ha as [i Hi], Hb as [j Hj].
    rewrite (getitem_lookup _ _ _ _ Hnd Hi), (getitem_lookup _ _ _ _ Hnd Hj).
    intros [= E]. apply Nat2Z.inj in E. subst j. congruence.
Qed.

Lemma vocabulary_round_trip_witness :
  NoDup (Vocab.itos example_vocabulary)
  /\ (forall i tok,
        Vocab.itos example_vocabulary !! i = Some tok ->
        Vocab.getitem example_vocabulary tok = Ok (Z.of_nat i))
  /\ (forall a b,
        a ∈ Vocab.itos example_vocabulary ->
        b ∈ Vocab.itos example_vocabulary ->
        Vocab.getitem example_vocabulary a
        = Vocab.getitem example_vocabulary b -> a = b).
Proof.
  apply (vocabulary_round_trip example_counts example_vocabulary).
  reflexivity.
Defined.

(** X6: a token that is not a special and is not among the first
    [TOP_TOKENS] items of the sorted counter resolves to 1, the index of
    [<UNK>]: it was never counted, or too rarely. *)
Theorem rare_token_unknown (token_counter_sorted : list (string * Z))
    (v : Vocab.t) (tok : string) :
  vocabulary token_counter_sorted = Ok v ->
  tok ∉ SPECIALS ->
  tok ∉ map fst (Py.slice token_counter_sorted 0 TOP_TOKENS) ->
  Vocab.getitem v tok = Ok 1.
Proof.
  rewrite vocabulary_eq. intros [= <-] Hs Hk.
  apply getitem_absent; [reflexivity|]. cbn [Vocab.itos].
  apply index_of_None. intros H.
  change (tok ∈ SPECIALS ++ vocabulary_tokens token_counter_sorted) in H.
  apply elem_of_app in H as [H|H]; [auto|].
  apply (vocabulary_tokens_spec token_counter_sorted) in H as [_ H]. auto.
Qed.

Lemma rare_token_unknown_witness :
  Vocab.getitem example_vocabulary "zz" = Ok 1.
Proof.
  apply (rare_token_unknown example_counts example_vocabulary "zz").
  - reflexivity.
  - intros H. repeat (apply elem_of_cons in H as [H|H]; [discriminate|]).
    inversion H.
  - vm_compute.
    intros H. repeat (apply elem_of_cons in H as [H|H]; [discriminate|]).
    inversion H.
Defined.

Ltac not_elem :=
  let H := fresh in
  intros H;
  repeat (apply elem_of_cons in H as [H|H]; [discriminate|]);
  inversion H.

Ltac no_dup :=
  repeat (apply NoDup_cons; split; [not_elem|]); apply NoDup_nil_2.

Lemma vocabulary_tokens_clean (token_counter_sorted : list (string * Z)) :
  NoDup (map fst token_counter_sorted) ->
  Forall (fun kx => 1 <= snd kx /\ fst kx ∉ SPECIALS) token_counter_sorted ->
  vocabulary_tokens token_counter_sorted
  = map fst (Py.slice token_counter_sorted 0 TOP_TOKENS).
Proof.
  intros Hnd Hall.
  unfold vocabulary_tokens, token_ordered_dict, Vocab.OrderedDict.
  rewrite slice_prefix by (unfold TOP_TOKENS; lia).
  set (items := take (Z.to_nat TOP_TOKENS) token_counter_sorted).
  assert (Hnd' : NoDup (map fst items)).
  { unfold items. rewrite <- firstn_map.
    eapply sublist_NoDup; [exact Hnd|apply sublist_take]. }
  assert (Hall' : Forall (fun kx => 1 <= snd kx /\ fst kx ∉ SPECIALS) items)
    by apply Forall_take, Hall.
  destruct (OrderedDict_fold items [] NoDup_nil_2) as (_ & _ & Hid).
  cbv zeta in Hid. rewrite Hid by exact Hnd'. cbn [app].
  destruct (dict_pops_spec SPECIALS items) as (_ & _ & Hid').
  cbv zeta in Hid'. rewrite Hid'.
  2:{ eapply Forall_impl; [exact Hall'|]. cbv beta. tauto. }
  rewrite filter_all; [reflexivity|].
  eapply Forall_impl; [exact Hall'|]. cbv beta.
  intros kx [H _]. apply Z.leb_le, H.
Qed.

(** X7: when the sorted counter names no token twice, counts every token at
    least once and holds no special, as the counter of [process_reviews]
    does on a corpus free of specials, the vocabulary is the four specials
    followed by the tokens of the first [TOP_TOKENS] items in their order:
    the token of item [i] has the index [4 + i]. *)
Theorem top_tokens_indices (token_counter_sorted : list (string * Z)) :
  NoDup (map fst token_counter_sorted) ->
  Forall (fun kx => 1 <= snd kx /\ fst kx ∉ SPECIALS) token_counter_sorted ->
  exists v,
    vocabulary token_counter_sorted = Ok v
    /\ Vocab.itos v
       = SPECIALS ++ map fst (Py.slice token_counter_sorted 0 TOP_TOKENS)
    /\ forall i tok c,
         token_counter_sorted !! i = Some (tok, c) ->
         Z.of_nat i < TOP_TOKENS ->
         Vocab.getitem v tok = Ok (4 + Z.of_nat i).
Proof.
  intros Hnd Hall. eexists. split; [apply vocabulary_eq|].
  pose proof (NoDup_vocabulary token_counter_sorted) as Hnd'.
  rewrite (vocabulary_tokens_clean _ Hnd Hall) in *.
  cbn [Vocab.itos]. split; [reflexivity|].
  intros i tok c Hi Hlt.
  replace (4 + Z.of_nat i) with (Z.of_nat (4 + i)) by lia.
  apply getitem_lookup; [exact Hnd'|].
  rewrite lookup_app_r by (cbn [length SPECIALS]; lia).
  replace (4 + i - length SPECIALS)%nat with i by (cbn [length SPECIALS]; lia).
  rewrite slice_prefix by (unfold TOP_TOKENS; lia).
  rewrite lookup_map, lookup_take_lt, Hi by lia. reflexivity.
Qed.

Lemma top_tokens_indices_witness :
  exists v,
    vocabulary example_counts = Ok v
    /\ Vocab.itos v
       = SPECIALS ++ map fst (Py.slice example_counts 0 TOP_TOKENS)
    /\ forall i tok c,
         example_counts !! i = Some (tok, c) ->
         Z.of_nat i < TOP_TOKENS ->
         Vocab.getitem v tok = Ok (4 + Z.of_nat i).
Proof.
  apply (top_tokens_indices example_counts).
  - cbn [example_counts map fst]. no_dup.
  - unfold example_counts.
    repeat (apply Forall_cons; split; [split; [cbn; lia|cbn; not_elem]|]).
    apply Forall_nil_2.
Defined.

(** ** From the reviews to the identifiers *)

Lemma StronglySorted_lookup {A : Type} (R : A -> A -> Prop) (l : list A)
    (i j : nat) (x y : A) :
  StronglySorted R l -> (i < j)%nat ->
  l !! i = Some x -> l !! j = Some y -> R x y.
Proof.
  intros Hs. revert i j. induction Hs as [|a l Hl IH Ha]; intros i j Hij Hi Hj.
  - discriminate.
  - destruct j as [|j]; [lia|]. cbn in Hj. destruct i as [|i].
    + injection Hi as <-. rewrite Forall_forall in Ha.
      apply Ha. eapply list_elem_of_lookup_2, Hj.
    + cbn in Hi. apply (IH i j); [lia|assumption..].
Qed.

(** On a corpus free of specials with at most [TOP_TOKENS] distinct tokens
    the vocabulary is the specials followed by all counted tokens, most
    frequent first, and every token of the corpus sits in the sorted counter
    with its number of occurrences. *)
Lemma corpus_vocabulary (limit : Z) (folders : list (list entry))
    (tokens : list string) (token_counter : list (string * Z)) :
  process_reviews limit folders = (tokens, token_counter) ->
  Forall (fun tok => tok ∉ SPECIALS) tokens ->
  Z.of_nat (length token_counter) <= TOP_TOKENS ->
  vocabulary (sorted_by_count token_counter)
  = Ok (Vocab.mk (SPECIALS ++ map fst (sorted_by_count token_counter))
          (Some 1))
  /\ NoDup (SPECIALS ++ map fst (sorted_by_count token_counter))
  /\ forall tok,
       tok ∈ tokens ->
       exists i,
         sorted_by_count token_counter !! i
         = Some (tok, Z.of_nat (count_occ string_dec tokens tok)).
Proof.
  intros Hpr Hclean Hsize.
  pose proof (process_reviews_agree limit folders) as [Hnd Hget].
  rewrite Hpr in Hnd, Hget. cbn [fst snd] in Hnd, Hget.
  pose proof (sorted_by_count_perm token_counter) as Hperm.
  set (tcs := sorted_by_count token_counter) in *.
  assert (Hin : forall tok c,
             (tok, c) ∈ tcs ->
             tok ∈ tokens /\ c = Z.of_nat (count_occ string_dec tokens tok)
             /\ 1 <= c).
  { intros tok c H. rewrite Hperm in H.
    pose proof (dict_get_elem _ _ _ Hnd H) as Hc. rewrite Hget in Hc.
    destruct (count_occ string_dec tokens tok) as [|n] eqn:E;
      [discriminate|].
    injection Hc as <-. split; [|lia].
    apply list_elem_of_In, (count_occ_In string_dec). lia. }
  assert (Hnd' : NoDup (map fst tcs)).
  { eapply NoDup_Permutation_proper; [|exact Hnd].
    apply Permutation_map, Hperm. }
  assert (Hall : Forall (fun kx => 1 <= snd kx /\ fst kx ∉ SPECIALS) tcs).
  { apply Forall_forall. intros [tok c] H. cbn [fst snd].
    apply Hin in H as (Htok & _ & Hc). split; [exact Hc|].
    rewrite Forall_forall in Hclean. apply Hclean, Htok. }
  assert (Hslice : Py.slice tcs 0 TOP_TOKENS = tcs).
  { rewrite slice_prefix by (unfold TOP_TOKENS; lia).
    apply take_ge. rewrite (Permutation_length Hperm). lia. }
  pose proof (NoDup_vocabulary tcs) as Hv.
  rewrite (vocabulary_tokens_clean _ Hnd' Hall), Hslice in Hv.
  split; [|split; [exact Hv|]].
  - rewrite vocabulary_eq, (vocabulary_tokens_clean _ Hnd' Hall), Hslice.
    reflexivity.
  - intros tok Htok.
    assert (Hc : (count_occ string_dec tokens tok > 0)%nat)
      by (apply count_occ_In, list_elem_of_In, Htok).
    specialize (Hget tok).
    destruct (count_occ string_dec tokens tok) as [|n]; [lia|].
    apply dict_get_Some_elem in Hget. rewrite <- Hperm in Hget.
    apply list_elem_of_lookup in Hget. exact Hget.
Qed.

(** X8: when no token of the reviews is the text of a special and the reviews
    hold at most [TOP_TOKENS] distinct tokens, no token of the corpus is
    resolved to [<UNK>]: each has an index of its own from 4 on, and the
    token sequence can be read back from its identifiers. *)
Theorem corpus_tokens_resolved (considered_num_reviews : Z)
    (folders : list (list entry)) (tokens : list string)
    (token_counter : list (string * Z)) :
  process_reviews considered_num_reviews folders = (tokens, token_counter) ->
  Forall (fun tok => tok ∉ SPECIALS) tokens ->
  Z.of_nat (length token_counter) <= TOP_TOKENS ->
  exists v ids,
    vocabulary (sorted_by_count token_counter) = Ok v
    /\ Vocab.lookup_indices v tokens = Ok ids
    /\ Forall (fun id => 4 <= id < Vocab.len v) ids
    /\ map (fun id => Vocab.itos v !! Z.to_nat id) ids = map Some tokens.
Proof.
  intros Hpr Hclean Hsize.
  destruct (corpus_vocabulary _ _ _ _ Hpr Hclean Hsize) as (Hv & Hnd & Hpos).
  set (tcs := sorted_by_count token_counter) in *.
  set (v := Vocab.mk (SPECIALS ++ map fst tcs) (Some 1)) in *.
  exists v, (map (resolve v 1) tokens).
  split; [exact Hv|].
  split; [apply lookup_indices_resolve; reflexivity|].
  assert (Hres : forall tok,
             tok ∈ tokens ->
             4 <= resolve v 1 tok < Vocab.len v
             /\ Vocab.itos v !! Z.to_nat (resolve v 1 tok) = Some tok).
  { intros tok Htok. destruct (Hpos tok Htok) as [i Hi].
    assert (Hl : Vocab.itos v !! (4 + i)%nat = Some tok).
    { cbn [v Vocab.itos].
      rewrite lookup_app_r by (cbn [length SPECIALS]; lia).
      replace (4 + i - length SPECIALS)%nat with i
        by (cbn [length SPECIALS]; lia).
      rewrite lookup_map, Hi. reflexivity. }
    unfold resolve.
    change (Vocab.itos v) with (SPECIALS ++ map fst tcs) in *.
    rewrite (index_of_NoDup _ _ _ Hnd Hl).
    apply lookup_lt_Some in Hl as Hlt. unfold Vocab.len, Py.len.
    change (Vocab.itos v) with (SPECIALS ++ map fst tcs).
    rewrite Nat2Z.id. split; [lia|exact Hl]. }
  split.
  - apply Forall_map, Forall_forall. intros tok Htok. apply Hres, Htok.
  - rewrite map_map. apply map_ext_Forall, Forall_forall.
    intros tok Htok. apply Hres, Htok.
Qed.

Lemma corpus_tokens_resolved_witness :
  exists v ids,
    vocabulary (sorted_by_count [("good", 2); ("film", 1)]%string) = Ok v
    /\ Vocab.lookup_indices v ["good"; "film"; "good"]%string = Ok ids
    /\ Forall (fun id => 4 <= id < Vocab.len v) ids
    /\ map (fun id => Vocab.itos v !! Z.to_nat id) ids
       = map Some ["good"; "film"; "good"]%string.
Proof.
  apply (corpus_tokens_resolved 1 example_folders).
  - reflexivity.
  - repeat (apply Forall_cons; split; [not_elem|]). apply Forall_nil_2.
  - vm_compute. discriminate.
Defined.

(** X9: under the same conditions the identifiers follow the frequency of
    the tokens: of two tokens of the corpus, the one with the smaller
    identifier occurs at least as often as the other. *)
Theorem identifiers_by_frequency (considered_num_reviews : Z)
    (folders : list (list entry)) (tokens : list string)
    (token_counter : list (string * Z)) (v : Vocab.t) (a b : string)
    (i j : Z) :
  process_reviews considered_num_reviews folders = (tokens, token_counter) ->
  Forall (fun tok => tok ∉ SPECIALS) tokens ->
  Z.of_nat (length token_counter) <= TOP_TOKENS ->
  vocabulary (sorted_by_count token_counter) = Ok v ->
  a ∈ tokens -> b ∈ tokens ->
  Vocab.getitem v a = Ok i -> Vocab.getitem v b = Ok j ->
  i < j ->
  (count_occ string_dec tokens b <= count_occ string_dec tokens a)%nat.
Proof.
  intros Hpr Hclean Hsize Hv Ha Hb Hi Hj Hij.
  destruct (corpus_vocabulary _ _ _ _ Hpr Hclean Hsize) as (Hv' & Hnd & Hpos).
  rewrite Hv' in Hv. injection Hv as <-.
  pose proof (sorted_by_count_sorted token_counter) as Hsorted.
  set (tcs := sorted_by_count token_counter) in *.
  destruct (Hpos a Ha) as [ia Hia]. destruct (Hpos b Hb) as [ib Hib].
  assert (Hl : forall tok c k,
             tcs !! k = Some (tok, c) ->
             (SPECIALS ++ map fst tcs) !! (4 + k)%nat = Some tok).
  { intros tok c k Hk.
    rewrite lookup_app_r by (cbn [length SPECIALS]; lia).
    replace (4 + k - length SPECIALS)%nat with k
      by (cbn [length SPECIALS]; lia).
    rewrite lookup_map, Hk. reflexivity. }
  rewrite (getitem_lookup _ _ _ _ Hnd (Hl _ _ _ Hia)) in Hi.
  rewrite (getitem_lookup _ _ _ _ Hnd (Hl _ _ _ Hib)) in Hj.
  injection Hi as <-. injection Hj as <-.
  pose proof (StronglySorted_lookup _ _ ia ib _ _ Hsorted ltac:(lia) Hia Hib)
    as H.
  cbn [snd] in H. lia.
Qed.

Lemma identifiers_by_frequency_witness :
  (count_occ string_dec ["good"; "film"; "good"]%string "film"%string
   <= count_occ string_dec ["good"; "film"; "good"]%string "good"%string)%nat.
Proof.
  apply (identifiers_by_frequency 1 example_folders
           ["good"; "film"; "good"]%string [("good", 2); ("film", 1)]%string
           (Vocab.mk ["<PAD>"; "<UNK>"; "<SOS>"; "<EOS>"; "good"; "film"]%string
              (Some 1))
           "good"%string "film"%string 4 5).
  - reflexivity.
  - repeat (apply Forall_cons; split; [not_elem|]). apply Forall_nil_2.
  - vm_compute. discriminate.
  - reflexivity.
  - left.
  - right. left.
  - reflexivity.
  - reflexivity.
  - lia.
Defined.

(** * More on the generator *)

Lemma window_context_app {A : Type} (l m : list A) (w k : nat) :
  (k + 2 * w + 1 <= length l)%nat ->
  window_context (l ++ m) w k = window_context l w k.
Proof.
  intros H. unfold window_context.
  rewrite !drop_app_le by lia.
  rewrite !take_app_le by (rewrite length_drop; lia). reflexivity.
Qed.

Lemma cbow_rows_app (ids more : list Z) (w : nat) :
  (2 * w <= length ids)%nat ->
  cbow_rows (ids ++ more) w
  = cbow_rows ids w
    ++ map (cbow_row (ids ++ more) w)
         (seq (length ids - 2 * w) (length more)).
Proof.
  intros H. unfold cbow_rows. rewrite length_app.
  replace (length ids + length more - 2 * w)%nat
    with ((length ids - 2 * w) + length more)%nat by lia.
  rewrite seq_app, map_app. cbn [Nat.add]. f_equal.
  apply map_ext_in. intros k Hk. apply in_seq in Hk.
  unfold cbow_row. rewrite window_context_app, app_nth1 by lia.
  reflexivity.
Qed.

Lemma skipgram_rows_app (ids more : list Z) (w : nat) :
  (2 * w <= length ids)%nat ->
  skipgram_rows (ids ++ more) w
  = skipgram_rows ids w
    ++ concat (map (skipgram_group (ids ++ more) w)
                 (seq (length ids - 2 * w) (length more))).
Proof.
  intros H. unfold skipgram_rows. rewrite length_app.
  replace (length ids + length more - 2 * w)%nat
    with ((length ids - 2 * w) + length more)%nat by lia.
  rewrite seq_app, map_app, concat_app. cbn [Nat.add]. do 2 f_equal.
  apply map_ext_in. intros k Hk. apply in_seq in Hk.
  unfold skipgram_group. rewrite window_context_app, app_nth1 by lia.
  reflexivity.
Qed.

(** X10: the tables grow with the corpus. When tokens are appended to a
    corpus of at least [2w] tokens, the rows computed for the shorter corpus
    stay as they are, in both tables, and the new rows come behind them. *)
Theorem corpus_extension (v : Vocab.t) (d : Z) (tokens more : list string)
    (w : Z) :
  Vocab.default_index v = Some d ->
  0 <= w -> 2 * w <= Py.len tokens ->
  exists cbow skipgram cbow' skipgram',
    generate v tokens w = Ok (cbow, skipgram)
    /\ generate v (tokens ++ more) w = Ok (cbow', skipgram')
    /\ Np.data cbow `prefix_of` Np.data cbow'
    /\ Np.data skipgram `prefix_of` Np.data skipgram'
    /\ Np.nrows cbow' = Np.nrows cbow + Py.len more.
Proof.
  intros Hd Hw Hn.
  assert (Hn' : 2 * w <= Py.len (tokens ++ more)).
  { unfold Py.len in *. rewrite length_app. lia. }
  rewrite (generate_ok v d tokens w Hd Hw Hn).
  rewrite (generate_ok v d (tokens ++ more) w Hd Hw Hn').
  do 4 eexists. split; [reflexivity|]. split; [reflexivity|].
  cbn [Np.data Np.nrows]. rewrite !map_app.
  unfold Py.len in *.
  rewrite cbow_rows_app, skipgram_rows_app by (rewrite !length_map; lia).
  split; [eexists; reflexivity|]. split; [eexists; reflexivity|].
  rewrite length_app. lia.
Qed.

Lemma corpus_extension_witness :
  exists cbow skipgram cbow' skipgram',
    generate example_vocabulary short_tokens 1 = Ok (cbow, skipgram)
    /\ generate example_vocabulary (short_tokens ++ unknown_tokens) 1
       = Ok (cbow', skipgram')
    /\ Np.data cbow `prefix_of` Np.data cbow'
    /\ Np.data skipgram `prefix_of` Np.data skipgram'
    /\ Np.nrows cbow' = Np.nrows cbow + Py.len unknown_tokens.
Proof.
  apply (corpus_extension example_vocabulary 1 short_tokens unknown_tokens 1).
  - reflexivity.
  - lia.
  - vm_compute. discriminate.
Defined.

Lemma getitem_nonneg {A : Type} (l : list A) (z : Z) (a : A) :
  0 <= z -> Py.getitem l z = Ok a <-> l !! Z.to_nat z = Some a.
Proof.
  intros Hz. split.
  - unfold Py.getitem.
    replace (z <? 0) with false by (symmetry; apply Z.ltb_ge; lia).
    cbv iota zeta.
    destruct ((z <? 0) || (Py.len l <=? z)); [discriminate|].
    destruct (l !! Z.to_nat z); [|discriminate].
    intros [= ->]. reflexivity.
  - intros H. rewrite <- (Z2Nat.id z) by exact Hz.
    apply getitem_in_range, H.
Qed.

(** X11: the rows of the Skip-gram table are the pairs of a center and a
    neighbour, and nothing else: [(c, x)] is a row exactly when [c] is the
    identifier at a position [p] with [w] tokens on either side and [x] the
    identifier at another position [q] at most [w] away from [p]. No token is
    paired with its own position or with one further away, and the first and
    the last [w] tokens are never centers. *)
Theorem skipgram_pairs (token_counter_sorted : list (string * Z))
    (v : Vocab.t) (tokens : list string) (ids : list Z) (w : Z) :
  vocabulary token_counter_sorted = Ok v ->
  Vocab.lookup_indices v tokens = Ok ids ->
  0 <= w -> 2 * w <= Py.len tokens ->
  exists cbow skipgram,
    generate v tokens w = Ok (cbow, skipgram)
    /\ forall row,
         row ∈ Np.data skipgram
         <-> exists p q c x,
               row = [c; x]
               /\ w <= p < Py.len tokens - w
               /\ 0 < Z.abs (q - p) <= w
               /\ Py.getitem ids p = Ok c
               /\ Py.getitem ids q = Ok x.
Proof.
  intros Hv Hids Hw Hn.
  destruct (notebook_generate _ _ _ _ w Hv Hids Hw Hn) as [Hg Hlen].
  do 2 eexists. split; [exact Hg|]. cbn [Np.data].
  unfold Py.len in *. set (wn := Z.to_nat w). intros row. split.
  - intros Hrow. apply list_elem_of_In in Hrow. unfold skipgram_rows in Hrow.
    apply in_concat in Hrow as (group & Hgroup & Hrow).
    apply in_map_iff in Hgroup as (k & <- & Hk). apply in_seq in Hk.
    unfold skipgram_group in Hrow.
    apply in_map_iff in Hrow as (x & <- & Hx).
    apply list_elem_of_In, list_elem_of_lookup_1 in Hx as [j Hj].
    pose proof (lookup_lt_Some _ _ _ Hj) as Hjlt.
    rewrite length_window_context in Hjlt by lia.
    destruct (nth_lookup_or_length ids (k + wn) 0) as [Hc|Hc]; [|lia].
    destruct (Nat.lt_ge_cases j wn) as [Hlt|Hge].
    + rewrite lookup_window_left in Hj by exact Hlt.
      exists (Z.of_nat (k + wn)), (Z.of_nat (k + j)), (nth (k + wn) ids 0), x.
      split; [reflexivity|]. split; [lia|]. split; [lia|].
      split; apply getitem_in_range; assumption.
    + replace j with (wn + (j - wn))%nat in Hj by lia.
      rewrite lookup_window_right in Hj by lia.
      exists (Z.of_nat (k + wn)), (Z.of_nat (k + wn + 1 + (j - wn))),
        (nth (k + wn) ids 0), x.
      split; [reflexivity|]. split; [lia|]. split; [lia|].
      split; apply getitem_in_range; assumption.
  - intros (p & q & c & x & -> & Hp & Hq & Hc & Hx).
    apply getitem_nonneg in Hc; [|lia]. apply getitem_nonneg in Hx; [|lia].
    set (k := Z.to_nat (p - w)).
    assert (Hcn : nth (k + wn) ids 0 = c).
    { apply nth_lookup_Some. rewrite <- Hc. f_equal. lia. }
    destruct (Z.lt_ge_cases q p) as [Hlt|Hge].
    + apply (list_elem_of_lookup_2 _ (k * (2 * wn) + Z.to_nat (q - (p - w)))).
      rewrite lookup_skipgram_rows, lookup_window_left by lia.
      replace (k + Z.to_nat (q - (p - w)))%nat with (Z.to_nat q) by lia.
      rewrite Hx, Hcn. reflexivity.
    + apply (list_elem_of_lookup_2 _
               (k * (2 * wn) + (wn + Z.to_nat (q - p - 1)))).
      rewrite lookup_skipgram_rows, lookup_window_right by lia.
      replace (k + wn + 1 + Z.to_nat (q - p - 1))%nat with (Z.to_nat q)
        by lia.
      rewrite Hx, Hcn. reflexivity.
Qed.

Lemma skipgram_pairs_witness :
  exists cbow skipgram,
    generate example_vocabulary example_tokens 2 = Ok (cbow, skipgram)
    /\ forall row,
         row ∈ Np.data skipgram
         <-> exists p q c x,
               row = [c; x]
               /\ 2 <= p < Py.len example_tokens - 2
               /\ 0 < Z.abs (q - p) <= 2
               /\ Py.getitem [10; 11; 12; 13; 14; 15; 16] p = Ok c
               /\ Py.getitem [10; 11; 12; 13; 14; 15; 16] q = Ok x.
Proof.
  apply (skipgram_pairs example_counts example_vocabulary example_tokens
           [10; 11; 12; 13; 14; 15; 16] 2).
  - reflexivity.
  - reflexivity.
  - lia.
  - vm_compute. discriminate.
Defined.

(** X12: once the review files are read, the notebook from the folders to
    the arrays fails in one way only. Building the vocabulary and resolving
    the tokens never raise; the arrays are returned when [0 <= w] and the
    processed reviews hold at least [2w] tokens, and otherwise the allocation
    by [np.zeros] raises [ValueError], as it does for folders without
    regular files and any positive [w]. *)
Theorem notebook_outcome (considered_num_reviews : Z)
    (folders : list (list entry)) (w : Z) :
  let tokens := fst (process_reviews considered_num_reviews folders) in
  (0 <= w /\ 2 * w <= Py.len tokens ->
   exists cbow skipgram,
     notebook considered_num_reviews folders w = Ok (cbow, skipgram))
  /\ (w < 0 \/ Py.len tokens < 2 * w ->
      notebook considered_num_reviews folders w = Raise ValueError)
  /\ (regular_files folders = [] -> 0 < w ->
      notebook considered_num_reviews folders w = Raise ValueError).
Proof.
  cbv zeta. unfold notebook, process_reviews. cbn [fst].
  pose proof (scan_folders_tokens considered_num_reviews folders
                (mk_reviews [] [] 0)) as Htok.
  cbv zeta in Htok. cbn [r_tokens r_review_count app] in Htok.
  rewrite Z.sub_0_r in Htok.
  set (st := scan_folders considered_num_reviews folders _) in *.
  rewrite vocabulary_eq. cbn [bind].
  split; [|split].
  - intros [Hw Hn]. erewrite generate_ok by (reflexivity || assumption).
    do 2 eexists. reflexivity.
  - intros [Hw|Hn]; [apply generate_negative_window|apply generate_short];
      assumption.
  - intros Hnone Hw. apply generate_short.
    rewrite Htok, Hnone, take_nil. unfold Py.len. cbn [concat length]. lia.
Qed.

